(** * fbx_to_lua: OBJ mesh to Lua table converter

    A shallow embedding of [fbx_to_lua.py] and the properties its
    specification states about it.

    The script is one module with two functions and a command-line block.
    The embedding follows that layout:

    - [Py]        the Python builtins the script calls: [str.strip],
                  [str.split], [str.lower], [int], [float], list indexing,
                  the [.Nf] presentation of a float, and the iteration of a
                  text file by lines;
    - [PosixPath] [os.path.splitext] and [os.path.basename];
    - [Obj]       the two blocks of [convert_obj_to_lua]: the line parser
                  with its fan triangulation, and the Lua serializer;
    - [Cli]       [convert_fbx_to_lua], [convert_obj_to_lua] as a whole
                  and the [__main__] block, as functions from the command
                  line and the file system to the outcome of the run.

    Data. Text is a Rocq string of ASCII characters. A Python integer is
    a [Z]. A Python float is an IEEE-754 binary64 value, [spec_float] at
    precision 53 and maximal exponent 1024, and the arithmetic on it is
    the library's [SFmul] and [SFsub]. The three lists of the parser are
    the fields of the record [mesh]; [list.append] puts an element at the
    end. The file system is a finite map from paths to the contents of
    regular files.

    Effects. An exception is the [Raise] result of an error monad; the
    script has no handler, so a [Raise] ends the run. The output of
    [print] is the list of its arguments. Writing the output file inserts
    its text at the output path; when an exception interrupts the writing,
    the text written so far is what the path holds.

    Outside the model: characters beyond ASCII, directories, and
    operating-system errors other than a missing input file. *)

From Stdlib Require Import ZArith List String Ascii Bool Lia DecimalString.
From Stdlib Require Import Floats.SpecFloat.
From stdpp Require Import gmap strings.

Open Scope Z_scope.

(** ** Python builtins *)

Module Py.

(** The exceptions the script can raise. None is caught anywhere in the
    script, so each of them ends the run. *)
Inductive exn : Type :=
| ValueError
| IndexError
| FileNotFoundError.

Inductive result (A : Type) : Type :=
| Ok (a : A)
| Raise (e : exn).
Arguments Ok {A} a.
Arguments Raise {A} e.

Definition bind {A B : Type} (m : result A) (k : A -> result B) : result B :=
  match m with
  | Ok a => k a
  | Raise e => Raise e
  end.

Definition of_option {A : Type} (e : exn) (o : option A) : result A :=
  match o with
  | Some a => Ok a
  | None => Raise e
  end.

(** *** Characters *)

Definition code (c : ascii) : N := N_of_ascii c.

(** [str.isspace] on ASCII: TAB, LF, VT, FF, CR, FS, GS, RS, US, SPACE. *)
Definition isspace (c : ascii) : bool :=
  (N.leb 9 (code c) && N.leb (code c) 13)
  || (N.leb 28 (code c) && N.leb (code c) 32).

Definition isdigit (c : ascii) : bool :=
  N.leb 48 (code c) && N.leb (code c) 57.

Definition digit_value (c : ascii) : Z := Z.of_N (code c) - 48.

Definition lower_char (c : ascii) : ascii :=
  if N.leb 65 (code c) && N.leb (code c) 90
  then ascii_of_N (code c + 32)
  else c.

(** [str.lower] *)
Fixpoint lower (s : string) : string :=
  match s with
  | EmptyString => EmptyString
  | String c s' => String (lower_char c) (lower s')
  end.

(** *** [str.strip] and [str.split] *)

Fixpoint lstrip (s : string) : string :=
  match s with
  | EmptyString => EmptyString
  | String c s' => if isspace c then lstrip s' else s
  end.

Fixpoint rstrip (s : string) : string :=
  match s with
  | EmptyString => EmptyString
  | String c s' =>
      match rstrip s' with
      | EmptyString => if isspace c then EmptyString else String c EmptyString
      | r => String c r
      end
  end.

Definition strip (s : string) : string := rstrip (lstrip s).

(** [s.split()] with no separator: the maximal runs of characters that
    are not whitespace, in order; never an empty string among them. *)
Fixpoint split (s : string) : list string :=
  match s with
  | EmptyString => []
  | String c s' =>
      if isspace c then split s'
      else
        match s' with
        | EmptyString => [String c EmptyString]
        | String c' _ =>
            if isspace c' then String c EmptyString :: split s'
            else
              match split s' with
              | [] => [String c EmptyString]
              | w :: ws => String c w :: ws
              end
        end
  end.

(** [s.split(sep)] with a one-character separator: the pieces between
    the separators, empty pieces included; at least one piece. *)
Fixpoint split_on (sep : ascii) (s : string) : list string :=
  match s with
  | EmptyString => [EmptyString]
  | String c s' =>
      if Ascii.eqb c sep then EmptyString :: split_on sep s'
      else
        match split_on sep s' with
        | [] => [String c EmptyString]
        | w :: ws => String c w :: ws
        end
  end.

(** *** Sequence indexing *)

(** [l[k]] for an integer [k]: a negative [k] counts from the end, and
    an index outside the list raises [IndexError]. *)
Definition getitem {A : Type} (l : list A) (k : Z) : result A :=
  let n := Z.of_nat (length l) in
  let k' := if k <? 0 then k + n else k in
  if (k' <? 0) || (n <=? k') then Raise IndexError
  else of_option IndexError (nth_error l (Z.to_nat k')).

(** [l[k:]] for a constant [k >= 0]. *)
Definition slice_from {A : Type} (k : nat) (l : list A) : list A := skipn k l.

(** *** [int(s)] in base 10 *)

(** A run [digit (["_"] digit)*] at the head of [s]: its digits, and the
    rest of [s]. An underscore is part of the run only between two
    digits. *)
Fixpoint read_digits (s : string) : list Z * string :=
  match s with
  | String c s' =>
      if isdigit c then
        match s' with
        | String "_" (String c' _ as s'') =>
            if isdigit c' then
              let '(ds, r) := read_digits s'' in (digit_value c :: ds, r)
            else ([digit_value c], s')
        | _ => let '(ds, r) := read_digits s' in (digit_value c :: ds, r)
        end
      else ([], s)
  | EmptyString => ([], s)
  end.

Definition digits_value (ds : list Z) : Z :=
  fold_left (fun acc d => 10 * acc + d) ds 0.

Definition read_sign (s : string) : bool * string :=
  match s with
  | String "-" s' => (true, s')
  | String "+" s' => (false, s')
  | _ => (false, s)
  end.

(** [int(s)]: an optional sign and a run of digits; [None] stands for
    the [ValueError] of a malformed literal. *)
Definition int_of_string (s : string) : option Z :=
  let '(neg, s1) := read_sign s in
  match read_digits s1 with
  | ((_ :: _) as ds, EmptyString) =>
      Some (if neg then - digits_value ds else digits_value ds)
  | _ => None
  end.

Definition int (s : string) : result Z :=
  of_option ValueError (int_of_string s).

(** [str(n)] for an integer: decimal digits, a leading [-] when negative. *)
Definition str_int (n : Z) : string :=
  NilZero.string_of_int (Z.to_int n).

(** *** Floats: IEEE-754 binary64 *)

Definition float : Type := spec_float.

Definition prec : Z := 53.
Definition emax : Z := 1024.

Definition float_of_Z (n : Z) : float := binary_normalize prec emax n 0 false.

Definition fmul (x y : float) : float := SFmul prec emax x y.
Definition fsub (x y : float) : float := SFsub prec emax x y.

(** The binary64 value nearest to [m * 10^e] (ties to even), with the
    sign [neg]; overflow gives an infinity, underflow a zero. *)
Definition float_of_decimal (neg : bool) (m e : Z) : float :=
  match m with
  | Zpos p =>
      if 0 <=? e then binary_round prec emax neg (Z.to_pos (m * 10 ^ e)) 0
      else
        let '(q, e', l) := SFdiv_core_binary prec emax m 0 (10 ^ (- e)) 0 in
        binary_round_aux prec emax neg q e' l
  | _ => S754_zero neg
  end.

(** The exponent part of a float literal, [None] when absent. *)
Definition read_exponent (s : string) : option (Z * string) :=
  match s with
  | String c s' =>
      if Ascii.eqb (lower_char c) "e" then
        let '(neg, s1) := read_sign s' in
        match read_digits s1 with
        | ((_ :: _) as ds, r) =>
            Some (if neg then - digits_value ds else digits_value ds, r)
        | _ => None
        end
      else None
  | EmptyString => None
  end.

(** [float(s)]: an optional sign, then [inf], [infinity] or [nan] in
    any case, or a decimal literal [digits [. digits] [e [sign] digits]]
    with a digit before or after the point; [None] stands for
    [ValueError]. *)
Definition float_of_string (s : string) : option float :=
  let '(neg, s1) := read_sign s in
  let w := lower s1 in
  if String.eqb w "inf" || String.eqb w "infinity" then Some (S754_infinity neg)
  else if String.eqb w "nan" then Some S754_nan
  else
    let '(ip, r1) := read_digits s1 in
    let '(fp, r2) :=
      match r1 with
      | String "." r => read_digits r
      | _ => ([], r1)
      end in
    match ip ++ fp with
    | [] => None
    | ds =>
        let m := digits_value ds in
        let scale := Z.of_nat (length fp) in
        match r2 with
        | EmptyString => Some (float_of_decimal neg m (- scale))
        | _ =>
            match read_exponent r2 with
            | Some (x, EmptyString) => Some (float_of_decimal neg m (x - scale))
            | _ => None
            end
        end
    end.

Definition float_ (s : string) : result float :=
  of_option ValueError (float_of_string s).

(** *** [format(x, ".Nf")] *)

Definition digit_char (d : Z) : ascii := ascii_of_N (Z.to_N (48 + d mod 10)).

(** The last [n] decimal digits of [k], zero padded. *)
Fixpoint frac_digits (n : nat) (k : Z) : string :=
  match n with
  | O => EmptyString
  | S n' => frac_digits n' (k / 10) +:+ String (digit_char k) EmptyString
  end.

(** [m * 2^e * 10^n] rounded to the nearest integer, ties to even. *)
Definition scaled_round (n : nat) (m : positive) (e : Z) : Z :=
  let num := Zpos m * 10 ^ Z.of_nat n in
  if 0 <=? e then num * 2 ^ e
  else
    let den := 2 ^ (- e) in
    let q := num / den in
    let r := num mod den in
    match 2 * r ?= den with
    | Lt => q
    | Gt => q + 1
    | Eq => if Z.even q then q else q + 1
    end.

Definition sign_text (neg : bool) : string := if neg then "-" else EmptyString.

(** Fixed-point text of the magnitude [k / 10^n]. *)
Definition fixed_text (n : nat) (k : Z) : string :=
  let scale := 10 ^ Z.of_nat n in
  str_int (k / scale)
  +:+ match n with
      | O => EmptyString
      | _ => "." +:+ frac_digits n (k mod scale)
      end.

(** [f"{x:.Nf}"]: fixed-point presentation with [n] digits after the
    point, correctly rounded from the exact binary value; the sign bit
    is shown also on a zero; infinities and NaN have their own words. *)
Definition format_f (n : nat) (x : float) : string :=
  match x with
  | S754_nan => "nan"
  | S754_infinity neg => sign_text neg +:+ "inf"
  | S754_zero neg => sign_text neg +:+ fixed_text n 0
  | S754_finite neg m e => sign_text neg +:+ fixed_text n (scaled_round n m e)
  end.

(** *** Text files *)

(** Iterating a file opened in text mode: the lines in order, each with
    its terminator, where [\r\n] and a lone [\r] are read as [\n]; the
    last line may have no terminator. *)
Fixpoint readlines (s : string) : list string :=
  match s with
  | EmptyString => []
  | String c s' =>
      let nl := String "010" EmptyString in
      if Ascii.eqb c "010" then nl :: readlines s'
      else if Ascii.eqb c "013" then
        match s' with
        | String "010" s'' => nl :: readlines s''
        | _ => nl :: readlines s'
        end
      else
        match s' with
        | EmptyString => [String c EmptyString]
        | _ =>
            match readlines s' with
            | [] => [String c EmptyString]
            | l :: ls => String c l :: ls
            end
        end
  end.

End Py.

Notation "'do' x <- m ; k" := (Py.bind m (fun x => k))
  (at level 10, x pattern, m at level 100, k at level 200).

Import Py.

(** ** [os.path] on a POSIX system *)

Module PosixPath.

(** [s[:n]] and [s[n:]] for [n >= 0]. *)
Fixpoint str_take (n : nat) (s : string) : string :=
  match n, s with
  | S n', String c s' => String c (str_take n' s')
  | _, _ => EmptyString
  end.

Fixpoint str_drop (n : nat) (s : string) : string :=
  match n, s with
  | S n', String _ s' => str_drop n' s'
  | _, _ => s
  end.

(** [s.rfind(c)]: the index of the last [c] in [s], or [-1]. *)
Fixpoint rfind (c : ascii) (s : string) : Z :=
  match s with
  | EmptyString => -1
  | String c' s' =>
      let r := rfind c s' in
      if 0 <=? r then r + 1
      else if Ascii.eqb c' c then 0 else -1
  end.

(** The loop of [genericpath._splitext] that skips the leading dots of
    the file name: is there a character other than a dot at some index
    in [filenameIndex, dotIndex)? *)
Fixpoint has_non_dot (count : nat) (s : string) : bool :=
  match count, s with
  | S count', String c s' =>
      if Ascii.eqb c "." then has_non_dot count' s' else true
  | _, _ => false
  end.

(** [os.path.splitext(p)]: [(root, ext)] where [ext] starts at the last
    dot of the last path component, unless that component has only dots
    before it. *)
Definition splitext (p : string) : string * string :=
  let sepIndex := rfind "/" p in
  let dotIndex := rfind "." p in
  if sepIndex <? dotIndex then
    let filenameIndex := sepIndex + 1 in
    if has_non_dot (Z.to_nat (dotIndex - filenameIndex))
                   (str_drop (Z.to_nat filenameIndex) p)
    then (str_take (Z.to_nat dotIndex) p, str_drop (Z.to_nat dotIndex) p)
    else (p, EmptyString)
  else (p, EmptyString).

(** [os.path.basename(p)] *)
Definition basename (p : string) : string :=
  str_drop (Z.to_nat (rfind "/" p + 1)) p.

End PosixPath.

(** ** [convert_obj_to_lua] *)

Module Obj.

Definition vertex : Type := float * float * float.
Definition uv : Type := float * float.
Definition triple : Type := Z * Z * Z.

(** An element of [faces]: [(tri, tri_uvs)], where [tri_uvs] is [None]
    for a face without texture indices. *)
Definition face : Type := triple * option triple.

(** The three lists the parser fills. *)
Record mesh : Type := Mesh {
  vertices : list vertex;
  uvs : list uv;
  faces : list face
}.

Definition empty_mesh : mesh := Mesh [] [] [].

Definition tab : string := String "009" EmptyString.
Definition nl : string := String "010" EmptyString.

Definition quote : string := String "034" EmptyString.

Definition truthy (s : string) : bool := negb (String.eqb s EmptyString).

(** One pass of the loop [for vert in parts[1:]]. *)
Definition face_vert (acc : list Z * list Z) (vert : string)
  : result (list Z * list Z) :=
  let '(face_verts, face_uvs) := acc in
  let indices := split_on "/" vert in
  do i0 <- getitem indices 0;
  do v_idx <- int i0;
  let face_verts := face_verts ++ [v_idx] in
  do has_uv <- (if 1 <? Z.of_nat (length indices)
                then do i1 <- getitem indices 1; Ok (truthy i1)
                else Ok false);
  if has_uv : bool then
    do i1 <- getitem indices 1;
    do uv_idx <- int i1;
    Ok (face_verts, face_uvs ++ [uv_idx])
  else Ok (face_verts, face_uvs).

Fixpoint face_indices (verts : list string) (acc : list Z * list Z)
  : result (list Z * list Z) :=
  match verts with
  | [] => Ok acc
  | vert :: rest => do acc' <- face_vert acc vert; face_indices rest acc'
  end.

(** [range(n)] for an integer [n]; empty when [n <= 0]. *)
Definition range (n : Z) : list Z := map Z.of_nat (seq 0 (Z.to_nat n)).

(** The loop [for i in range(len(face_verts) - 2)], over the remaining
    values of [i]. *)
Fixpoint triangulate_loop (face_verts face_uvs : list Z) (idxs : list Z)
    (faces : list face) : result (list face) :=
  match idxs with
  | [] => Ok faces
  | i :: idxs' =>
      do a <- getitem face_verts 0;
      do b <- getitem face_verts (i + 2);
      do c <- getitem face_verts (i + 1);
      let tri := (a, b, c) in
      match face_uvs with
      | _ :: _ =>
          do ua <- getitem face_uvs 0;
          do ub <- getitem face_uvs (i + 2);
          do uc <- getitem face_uvs (i + 1);
          let tri_uvs := (ua, ub, uc) in
          triangulate_loop face_verts face_uvs idxs' (faces ++ [(tri, Some tri_uvs)])
      | [] =>
          triangulate_loop face_verts face_uvs idxs' (faces ++ [(tri, None)])
      end
  end.

Definition triangulate (face_verts face_uvs : list Z) (faces : list face)
  : result (list face) :=
  triangulate_loop face_verts face_uvs
    (range (Z.of_nat (length face_verts) - 2)) faces.

(** The body of the loop [for line in f]. *)
Definition parse_line (st : mesh) (line : string) : result mesh :=
  let parts := split (strip line) in
  match parts with
  | [] => Ok st
  | p0 :: _ =>
      if String.eqb p0 "v" then
        do t1 <- getitem parts 1; do x <- float_ t1;
        do t2 <- getitem parts 2; do y <- float_ t2;
        do t3 <- getitem parts 3; do z <- float_ t3;
        Ok (Mesh (vertices st ++ [(x, y, z)]) (uvs st) (faces st))
      else if String.eqb p0 "vt" then
        do t1 <- getitem parts 1; do u <- float_ t1;
        do t2 <- getitem parts 2; do v <- float_ t2;
        Ok (Mesh (vertices st) (uvs st ++ [(u, v)]) (faces st))
      else if String.eqb p0 "f" then
        do indexed <- face_indices (slice_from 1 parts) ([], []);
        let '(face_verts, face_uvs) := indexed in
        do faces' <- triangulate face_verts face_uvs (faces st);
        Ok (Mesh (vertices st) (uvs st) faces')
      else Ok st
  end.

Fixpoint parse_lines (st : mesh) (lines : list string) : result mesh :=
  match lines with
  | [] => Ok st
  | line :: rest => do st' <- parse_line st line; parse_lines st' rest
  end.

(** The reading block: the whole input, line by line, from three empty
    lists. *)
Definition parse (content : string) : result mesh :=
  parse_lines empty_mesh (readlines content).

(** *** Serializer *)

Definition header (obj_path : string) : string :=
  "-- Auto-generated from: " +:+ PosixPath.basename obj_path +:+ nl
  +:+ "-- Picotron 3D Engine mesh format" +:+ nl +:+ nl.

Definition vertex_entry (v : vertex) : string :=
  let '(x, y, z) := v in
  tab +:+ "vec(" +:+ format_f 4 x +:+ ", " +:+ format_f 4 y
  +:+ ", " +:+ format_f 4 z +:+ ")," +:+ nl.

Definition sixteen : float := float_of_Z 16.
Definition one : float := float_of_Z 1.

(** [vec({uv[0]*16:.2f},{(1-uv[1])*16:.2f})] *)
Definition uv_vec (t : uv) : string :=
  let '(u, v) := t in
  "vec(" +:+ format_f 2 (fmul u sixteen) +:+ ","
  +:+ format_f 2 (fmul (fsub one v) sixteen) +:+ ")".

Definition tri_prefix (tri : triple) : string :=
  let '(a, b, c) := tri in
  tab +:+ "{" +:+ str_int a +:+ ", " +:+ str_int b +:+ ", " +:+ str_int c
  +:+ ", 0, ".

Definition fallback_uvs : string := "vec(0,0), vec(16,0), vec(16,16)".

(** What one pass of [for face_data in faces] writes. In the branch
    with texture coordinates the three lookups come before the first
    write, so a failing lookup writes nothing of the entry. *)
Definition face_entry (uvs : list uv) (face_data : face) : result string :=
  let '(tri, tri_uvs) := face_data in
  match tri_uvs, uvs with
  | Some (t0, t1, t2), _ :: _ =>
      do uv1 <- getitem uvs (t0 - 1);
      do uv2 <- getitem uvs (t1 - 1);
      do uv3 <- getitem uvs (t2 - 1);
      Ok (tri_prefix tri +:+ uv_vec uv1 +:+ ", " +:+ uv_vec uv2 +:+ ", "
          +:+ uv_vec uv3 +:+ "}," +:+ nl)
  | _, _ => Ok (tri_prefix tri +:+ fallback_uvs +:+ "}," +:+ nl)
  end.

Definition vertex_table (vs : list vertex) : string :=
  "local mesh_verts = {" +:+ nl
  +:+ String.concat EmptyString (map vertex_entry vs)
  +:+ "}" +:+ nl +:+ nl.

(** The face loop: the text written so far, and the exception that
    stopped the loop, if any. *)
Fixpoint write_faces (uvs : list uv) (fs : list face) (written : string)
  : string * option exn :=
  match fs with
  | [] => (written, None)
  | face_data :: rest =>
      match face_entry uvs face_data with
      | Ok entry => write_faces uvs rest (written +:+ entry)
      | Raise e => (written, Some e)
      end
  end.

Definition trailer : string :=
  "return {" +:+ nl
  +:+ tab +:+ "verts = mesh_verts," +:+ nl
  +:+ tab +:+ "faces = mesh_faces," +:+ nl
  +:+ tab +:+ "name = " +:+ quote +:+ "mesh" +:+ quote +:+ nl
  +:+ "}" +:+ nl.

(** The writing block: everything written to the output file, and the
    exception that interrupted the writing, if any. *)
Definition write_lua (obj_path : string) (m : mesh) : string * option exn :=
  let before :=
    header obj_path +:+ vertex_table (vertices m)
    +:+ "local mesh_faces = {" +:+ nl in
  match write_faces (uvs m) (faces m) before with
  | (written, None) => (written +:+ "}" +:+ nl +:+ nl +:+ trailer, None)
  | (written, Some e) => (written, Some e)
  end.

End Obj.

(** ** The two entry points and the command-line block *)

Module Cli.

(** How a run ends: by falling off the end of the script, by
    [sys.exit(code)], or by an exception nobody catches. *)
Inductive exit_status : Type :=
| Finished
| SysExit (code : Z)
| Uncaught (e : exn).

(** What a run leaves behind: the lines given to [print], in order, the
    way it ended, and the file system. *)
Record outcome : Type := Outcome {
  stdout : list string;
  status : exit_status;
  files : gmap string string
}.

(** [os.path.exists] *)
Definition path_exists (fs : gmap string string) (p : string) : bool :=
  match fs !! p with
  | Some _ => true
  | None => false
  end.

(** [if not output_path: output_path = os.path.splitext(path)[0] + ".lua"];
    [None] and the empty string are the two falsy values an output path
    can have. *)
Definition default_output (path : string) (output_path : option string)
  : string :=
  match output_path with
  | Some o =>
      if Obj.truthy o then o else fst (PosixPath.splitext path) +:+ ".lua"
  | None => fst (PosixPath.splitext path) +:+ ".lua"
  end.

Definition convert_fbx_to_lua (fbx_path : string)
    (output_path : option string) (fs : gmap string string) : outcome :=
  let output_path := default_output fbx_path output_path in
  Outcome
    [ "Error: FBX conversion not supported";
      "Please export your model as OBJ format instead.";
      "Most 3D software (Blender, Maya, 3DS Max, etc.) can export to OBJ." ]
    (SysExit 1) fs.

Definition convert_obj_to_lua (obj_path : string)
    (output_path : option string) (fs : gmap string string) : outcome :=
  let output_path := default_output obj_path output_path in
  match fs !! obj_path with
  | None => Outcome [] (Uncaught FileNotFoundError) fs
  | Some content =>
      match Obj.parse content with
      | Raise e => Outcome [] (Uncaught e) fs
      | Ok m =>
          match Obj.write_lua obj_path m with
          | (written, Some e) =>
              Outcome [] (Uncaught e) (<[output_path := written]> fs)
          | (written, None) =>
              Outcome
                [ "Converted " +:+ obj_path +:+ " -> " +:+ output_path;
                  "Vertices: "
                  +:+ str_int (Z.of_nat (length (Obj.vertices m)))
                  +:+ ", Faces: "
                  +:+ str_int (Z.of_nat (length (Obj.faces m))) ]
                Finished (<[output_path := written]> fs)
          end
      end
  end.

(** The module-level flag: set by whether [from fbx import *] succeeds. *)
Definition HAS_FBX_SDK (fbx_importable : bool) : bool :=
  if fbx_importable then true else false.

Definition usage : list string :=
  [ "Usage: python fbx_to_lua.py <input.fbx|input.obj> [output.lua]";
    Obj.nl +:+ "Example:";
    "  python fbx_to_lua.py building.fbx";
    "  python fbx_to_lua.py model.obj custom_output.lua" ].

(** The block under [if __name__ == "__main__"], for [sys.argv = argv]. *)
Definition main (argv : list string) (fs : gmap string string) : outcome :=
  match argv with
  | _ :: input_file :: rest =>
      let output_file :=
        match rest with
        | o :: _ => Some o
        | [] => None
        end in
      if negb (path_exists fs input_file) then
        Outcome ["Error: File not found: " +:+ input_file] (SysExit 1) fs
      else
        let ext := lower (snd (PosixPath.splitext input_file)) in
        if String.eqb ext ".fbx" then
          convert_fbx_to_lua input_file output_file fs
        else if String.eqb ext ".obj" then
          convert_obj_to_lua input_file output_file fs
        else
          Outcome
            [ "Error: Unsupported file format: " +:+ ext;
              "Supported: .fbx, .obj" ]
            (SysExit 1) fs
  | _ => Outcome usage (SysExit 1) fs
  end.

(** The whole script: the import block sets the flag, which nothing
    reads, then the command-line block runs. *)
Definition script (fbx_importable : bool) (argv : list string)
    (fs : gmap string string) : outcome :=
  let _flag := HAS_FBX_SDK fbx_importable in
  main argv fs.

End Cli.

Import PosixPath Obj Cli.

(** * Vocabulary of the properties *)

(** Triangle [i] of the fan over the index lists [V] and [U], as the
    specification writes it: [(V[0], V[i+2], V[i+1])], with the same
    positions of [U] when [U] is not empty. *)
Definition fan_triangle (V U : list Z) (i : nat) : face :=
  ((nth 0 V 0, nth (i + 2) V 0, nth (i + 1) V 0),
   match U with
   | [] => None
   | _ :: _ => Some (nth 0 U 0, nth (i + 2) U 0, nth (i + 1) U 0)
   end).

(** The vertex index a descriptor [v], [v/vt] or [v/vt/vn] gives, and its
    texture index when the second field is there and not empty; [None]
    when a field that is read is not an integer literal. *)
Definition descriptor (vert : string) : option (Z * option Z) :=
  match split_on "/" vert with
  | [] => None
  | i0 :: rest =>
      match int_of_string i0 with
      | None => None
      | Some v_idx =>
          match rest with
          | i1 :: _ =>
              if truthy i1 then
                match int_of_string i1 with
                | None => None
                | Some uv_idx => Some (v_idx, Some uv_idx)
                end
              else Some (v_idx, None)
          | [] => Some (v_idx, None)
          end
      end
  end.

(** The index lists a run of descriptors adds, or [None] when one of
    them is malformed. *)
Fixpoint descriptors (verts : list string) : option (list Z * list Z) :=
  match verts with
  | [] => Some ([], [])
  | vert :: rest =>
      match descriptor vert, descriptors rest with
      | Some (v_idx, o), Some (V, U) =>
          Some (v_idx :: V,
                match o with
                | Some uv_idx => uv_idx :: U
                | None => U
                end)
      | _, _ => None
      end
  end.

Definition tokens (line : string) : list string := split (strip line).

Definition float_ok (t : string) : bool :=
  match float_of_string t with
  | Some _ => true
  | None => false
  end.

(** At least [k] tokens follow the keyword, and the first [k] of them are
    float literals. *)
Definition numbers_ok (k : nat) (args : list string) : bool :=
  (k <=? length args)%nat && forallb float_ok (firstn k args).

Definition descriptor_ok (vert : string) : bool :=
  match descriptor vert with
  | Some _ => true
  | None => false
  end.

Definition has_uv (vert : string) : bool :=
  match descriptor vert with
  | Some (_, Some _) => true
  | _ => false
  end.

Fixpoint uv_count (verts : list string) : nat :=
  match verts with
  | [] => 0
  | vert :: rest => ((if has_uv vert then 1 else 0) + uv_count rest)%nat
  end.

(** Every descriptor is well formed, and with three or more of them the
    texture index is on all or on none. *)
Definition face_ok (descs : list string) : bool :=
  forallb descriptor_ok descs
  && ((length descs <? 3)%nat
      || (uv_count descs =? 0)%nat
      || (uv_count descs =? length descs)%nat).

Definition line_ok (line : string) : bool :=
  match tokens line with
  | [] => true
  | p0 :: args =>
      if String.eqb p0 "v" then numbers_ok 3 args
      else if String.eqb p0 "vt" then numbers_ok 2 args
      else if String.eqb p0 "f" then face_ok args
      else true
  end.

(** A line the parser passes over: blank, or with a leading token other
    than [v], [vt] and [f]. *)
Definition ignored (line : string) : Prop :=
  match tokens line with
  | [] => True
  | p0 :: _ => p0 <> "v" /\ p0 <> "vt" /\ p0 <> "f"
  end.

Definition first_field_ok (vert : string) : bool :=
  match split_on "/" vert with
  | i0 :: _ => match int_of_string i0 with Some _ => true | None => false end
  | [] => false
  end.

(** The condition for a failure as the specification words it: a [v] or
    [vt] line with too few tokens or with a token that is not a float
    literal, or an [f] line with no vertex token or with a vertex token
    whose first field is not an integer literal. *)
Definition stated_line_ok (line : string) : bool :=
  match tokens line with
  | [] => true
  | p0 :: args =>
      if String.eqb p0 "v" then numbers_ok 3 args
      else if String.eqb p0 "vt" then numbers_ok 2 args
      else if String.eqb p0 "f" then
        (1 <=? length args)%nat && forallb first_field_ok args
      else true
  end.

(** The text of a face entry without texture coordinates. *)
Definition fallback_entry (tri : triple) : string :=
  tri_prefix tri +:+ "vec(0,0), vec(16,0), vec(16,16)}," +:+ nl.

Definition in_range (n : nat) (i : Z) : Prop := 1 <= i <= Z.of_nat n.

(** Both kinds of index of a face satisfy a predicate: [P] the vertex
    indices, [Q] the texture indices. *)
Definition face_sat (P Q : Z -> Prop) (f : face) : Prop :=
  let '((a, b, c), tri_uvs) := f in
  P a /\ P b /\ P c
  /\ match tri_uvs with
     | Some (x, y, z) => Q x /\ Q y /\ Q z
     | None => True
     end.

(** [a] is a vertex index, respectively a texture index, that the parser
    read from some face line of [content]. *)
Definition parsed_vertex_index (content : string) (a : Z) : Prop :=
  exists line descs V U,
    In line (readlines content)
    /\ tokens line = "f" :: descs
    /\ face_indices descs ([], []) = Ok (V, U)
    /\ In a V.

Definition parsed_uv_index (content : string) (a : Z) : Prop :=
  exists line descs V U,
    In line (readlines content)
    /\ tokens line = "f" :: descs
    /\ face_indices descs ([], []) = Ok (V, U)
    /\ In a U.

(** A textured triangle, as an OBJ file. *)
Definition textured_triangle_obj : string :=
  "v 0 0 0" +:+ nl +:+ "v 1 0 0" +:+ nl +:+ "v 0 1 0" +:+ nl
  +:+ "vt 0 0" +:+ nl +:+ "vt 1 0" +:+ nl +:+ "vt 0.25 1" +:+ nl
  +:+ "f 1/1 2/2 3/3" +:+ nl.

Definition textured_triangle : mesh :=
  Eval vm_compute in
    match parse textured_triangle_obj with
    | Ok m => m
    | Raise _ => empty_mesh
    end.

Definition is_finite (x : float) : bool :=
  match x with
  | S754_zero _ | S754_finite _ _ _ => true
  | S754_infinity _ | S754_nan => false
  end.

Fixpoint all_digits (s : string) : bool :=
  match s with
  | EmptyString => true
  | String c s' => isdigit c && all_digits s'
  end.

(** The text ends with a decimal point and exactly [n] digits. *)
Definition has_decimals (n : nat) (s : string) : Prop :=
  exists ip fp : string,
    s = ip +:+ "." +:+ fp /\ String.length fp = n /\ all_digits fp = true.

(** A file with the texture coordinate [vt inf 0]. *)
Definition infinite_uv_obj : string :=
  "v 0 0 0" +:+ nl +:+ "v 1 0 0" +:+ nl +:+ "v 0 1 0" +:+ nl
  +:+ "vt inf 0" +:+ nl
  +:+ "f 1/1 2/1 3/1" +:+ nl.

(** What the parser makes of it: the first component of the only texture
    coordinate is the positive infinity. *)
Definition infinite_uv_mesh : mesh :=
  let zero := S754_zero false in
  let unit := S754_finite false 4503599627370496 (-52) in
  Mesh [(zero, zero, zero); (unit, zero, zero); (zero, unit, zero)]
       [(S754_infinity false, zero)]
       [((1, 3, 2), Some (1, 1, 1))].

Definition fbx_guidance : list string :=
  [ "Error: FBX conversion not supported";
    "Please export your model as OBJ format instead.";
    "Most 3D software (Blender, Maya, 3DS Max, etc.) can export to OBJ." ].

(** A directory with a malformed model and an output of an earlier run. *)
Definition stale_fs : gmap string string :=
  <["bad.lua" := "-- kept"]> {[ "bad.obj" := "f 1/1 2 3" ]}.

(** ** Vocabulary of the further properties *)

Fixpoint all_space (s : string) : bool :=
  match s with
  | EmptyString => true
  | String c s' => isspace c && all_space s'
  end.

(** The exception a [v] or [vt] line stops with, reading its [k] numbers
    from left to right: a missing token is an [IndexError], a token that
    is not a float literal a [ValueError]. *)
Fixpoint numbers_error (k : nat) (args : list string) : option exn :=
  match k with
  | O => None
  | S k' =>
      match args with
      | [] => Some IndexError
      | a :: rest =>
          if float_ok a then numbers_error k' rest else Some ValueError
      end
  end.

(** The exception a face line stops with: a malformed descriptor is a
    [ValueError]; texture indices on some vertices only, with three or
    more vertices, an [IndexError]. *)
Definition face_error (descs : list string) : option exn :=
  if forallb descriptor_ok descs then
    if face_ok descs then None else Some IndexError
  else Some ValueError.

Definition line_error (line : string) : option exn :=
  match tokens line with
  | [] => None
  | p0 :: args =>
      if String.eqb p0 "v" then numbers_error 3 args
      else if String.eqb p0 "vt" then numbers_error 2 args
      else if String.eqb p0 "f" then face_error args
      else None
  end.

(** What a line adds to each of the three lists when the parser accepts
    it. *)
Definition line_vertices (line : string) : list vertex :=
  match tokens line with
  | p0 :: a1 :: a2 :: a3 :: _ =>
      if String.eqb p0 "v" then
        match float_of_string a1, float_of_string a2, float_of_string a3 with
        | Some x, Some y, Some z => [(x, y, z)]
        | _, _, _ => []
        end
      else []
  | _ => []
  end.

Definition line_uvs (line : string) : list uv :=
  match tokens line with
  | p0 :: a1 :: a2 :: _ =>
      if String.eqb p0 "v" then []
      else if String.eqb p0 "vt" then
        match float_of_string a1, float_of_string a2 with
        | Some u, Some v => [(u, v)]
        | _, _ => []
        end
      else []
  | _ => []
  end.

Definition line_faces (line : string) : list face :=
  match tokens line with
  | p0 :: descs =>
      if String.eqb p0 "v" then []
      else if String.eqb p0 "vt" then []
      else if String.eqb p0 "f" then
        match descriptors descs with
        | Some (V, U) => map (fan_triangle V U) (seq 0 (length V - 2))
        | None => []
        end
      else []
  | [] => []
  end.

Definition leading_token_is (kw : string) (line : string) : bool :=
  match tokens line with
  | p0 :: _ => String.eqb p0 kw
  | [] => false
  end.

(** The number of triangles of a face line: two less than the number of
    its vertex tokens, none for fewer than three. *)
Definition line_triangles (line : string) : nat :=
  match tokens line with
  | p0 :: descs =>
      if String.eqb p0 "v" then 0%nat
      else if String.eqb p0 "vt" then 0%nat
      else if String.eqb p0 "f" then (length descs - 2)%nat
      else 0%nat
  | [] => 0%nat
  end.

(** A texture index that [uvs[t - 1]] accepts for a list of [n] pairs:
    the 1-based indices, and zero and the negative indices down to
    [1 - n], which count from the end. *)
Definition uv_resolves (n : nat) (t : Z) : bool :=
  (1 - Z.of_nat n <=? t) && (t <=? Z.of_nat n).

(** The position that [uvs[t - 1]] reads. *)
Definition uv_position (n : nat) (t : Z) : nat :=
  Z.to_nat (if t <=? 0 then t - 1 + Z.of_nat n else t - 1).

Definition uvs_resolve (n : nat) (f : face) : bool :=
  match snd f with
  | Some (t0, t1, t2) =>
      match n with
      | O => true
      | S _ => uv_resolves n t0 && uv_resolves n t1 && uv_resolves n t2
      end
  | None => true
  end.

(** The output path of a run, when the command line names an input. *)
Definition output_path_of (argv : list string) : option string :=
  match argv with
  | _ :: input_file :: rest => Some (default_output input_file (head rest))
  | _ => None
  end.

(** [p[:sepIndex + 1]]: the directory part of a path, with its last
    slash. *)
Definition directory_part (p : string) : string :=
  str_take (Z.to_nat (rfind "/" p + 1)) p.

(** The faces before the first one with a texture index that does not
    resolve. *)
Fixpoint resolving_prefix (n : nat) (fs : list face) : list face :=
  match fs with
  | [] => []
  | f :: rest =>
      if uvs_resolve n f then f :: resolving_prefix n rest else []
  end.

(** The text of the entry of a face, empty when the entry cannot be
    written. *)
Definition entry_text (uvs : list uv) (f : face) : string :=
  match face_entry uvs f with
  | Ok entry => entry
  | Raise _ => EmptyString
  end.

(** * Properties *)

(** ** Indexing *)

Lemma getitem_in_range {A : Type} (l : list A) (k : nat) (d : A) :
  (k < length l)%nat -> getitem l (Z.of_nat k) = Ok (nth k l d).
Proof.
  intros Hk. unfold getitem.
  destruct (Z.ltb_spec (Z.of_nat k) 0) as [Hneg | _]; [lia |].
  destruct (Z.ltb_spec (Z.of_nat k) 0) as [Hneg | _]; [lia |].
  destruct (Z.leb_spec (Z.of_nat (length l)) (Z.of_nat k)) as [Hge | _]; [lia |].
  cbn [orb]. rewrite Nat2Z.id.
  rewrite (nth_error_nth' l d Hk). reflexivity.
Qed.

Lemma getitem_past_end {A : Type} (l : list A) (k : nat) :
  (length l <= k)%nat -> getitem l (Z.of_nat k) = Raise IndexError.
Proof.
  intros Hk. unfold getitem.
  destruct (Z.ltb_spec (Z.of_nat k) 0) as [Hneg | _]; [lia |].
  destruct (Z.ltb_spec (Z.of_nat k) 0) as [Hneg | _]; [lia |].
  destruct (Z.leb_spec (Z.of_nat (length l)) (Z.of_nat k)) as [_ | Hlt]; [| lia].
  reflexivity.
Qed.

(** A 1-based index [i] with [1 <= i <= len(l)] reads position [i - 1]. *)
Lemma getitem_one_based {A : Type} (l : list A) (i : Z) (d : A) :
  1 <= i <= Z.of_nat (length l) ->
  getitem l (i - 1) = Ok (nth (Z.to_nat (i - 1)) l d).
Proof.
  intros Hi.
  rewrite <- (getitem_in_range l (Z.to_nat (i - 1)) d) by lia.
  f_equal. lia.
Qed.

(** ** Fan triangulation *)

Lemma triangulate_loop_fan (V U : list Z) (n s : nat) (acc : list face) :
  (s + n + 2 <= length V)%nat ->
  U = [] \/ (s + n + 2 <= length U)%nat ->
  triangulate_loop V U (map Z.of_nat (seq s n)) acc
  = Ok (acc ++ map (fan_triangle V U) (seq s n)).
Proof.
  revert s acc. induction n as [| n IH]; intros s acc HV HU.
  - cbn. now rewrite app_nil_r.
  - cbn [seq map triangulate_loop].
    replace 0 with (Z.of_nat 0) by reflexivity.
    replace (Z.of_nat s + 2) with (Z.of_nat (s + 2)) by lia.
    replace (Z.of_nat s + 1) with (Z.of_nat (s + 1)) by lia.
    rewrite !(getitem_in_range V _ 0) by lia. cbn [bind].
    destruct U as [| u0 U'].
    + rewrite IH by (auto; lia).
      rewrite <- app_assoc. reflexivity.
    + destruct HU as [HU | HU]; [discriminate |].
      rewrite !(getitem_in_range (u0 :: U') _ 0) by lia. cbn [bind].
      rewrite IH by (auto; lia).
      rewrite <- app_assoc. reflexivity.
Qed.

Lemma triangulate_fan (V U : list Z) (acc : list face) :
  U = [] \/ length U = length V ->
  triangulate V U acc
  = Ok (acc ++ map (fan_triangle V U) (seq 0 (length V - 2))).
Proof.
  intros HU. unfold triangulate, range.
  replace (Z.to_nat (Z.of_nat (length V) - 2)) with (length V - 2)%nat by lia.
  destruct (le_lt_dec 2 (length V)) as [Hge | Hlt].
  - apply triangulate_loop_fan; [lia |].
    destruct HU as [-> | HU]; [now left | right; lia].
  - replace (length V - 2)%nat with 0%nat by lia.
    cbn. now rewrite app_nil_r.
Qed.

Lemma parse_line_face (st : mesh) (line : string) (descs : list string)
    (V U : list Z) :
  split (strip line) = "f" :: descs ->
  face_indices descs ([], []) = Ok (V, U) ->
  parse_line st line
  = do faces' <- triangulate V U (faces st);
    Ok (Mesh (vertices st) (uvs st) faces').
Proof.
  intros Hparts Hidx. unfold parse_line. rewrite Hparts.
  cbn [String.eqb Ascii.eqb Bool.eqb slice_from skipn].
  change (skipn 0 descs) with descs.
  rewrite Hidx. reflexivity.
Qed.

(** C1. A face line whose descriptors give the vertex-index list [V] with
    at least three entries, and a texture-index list [U] that is empty or
    as long as [V], appends exactly [len(V) - 2] triangles to [faces];
    triangle [i] is [(V[0], V[i+2], V[i+1])], with [(U[0], U[i+2], U[i+1])]
    when [U] is not empty and no texture triple otherwise. The quad
    [f 1 2 3 4] gives the two triangles [(1, 3, 2)] and [(1, 4, 3)], that
    is [(V0, V2, V1)] and [(V0, V3, V2)], without texture triples. *)
Theorem triangulation_emits_inverted_fan (st : mesh) (line : string)
    (descs : list string) (V U : list Z) :
  split (strip line) = "f" :: descs ->
  face_indices descs ([], []) = Ok (V, U) ->
  (3 <= length V)%nat ->
  U = [] \/ length U = length V ->
  (exists tris : list face,
      parse_line st line
      = Ok (Mesh (vertices st) (uvs st) (faces st ++ tris))
      /\ length tris = (length V - 2)%nat
      /\ forall i : nat, (i < length V - 2)%nat ->
           nth_error tris i = Some (fan_triangle V U i))
  /\ parse_line empty_mesh "f 1 2 3 4"
     = Ok (Mesh [] [] [((1, 3, 2), None); ((1, 4, 3), None)]).
Proof.
  intros Hparts Hidx Hlen HU. split; [| reflexivity].
  exists (map (fan_triangle V U) (seq 0 (length V - 2))).
  split; [| split].
  - rewrite (parse_line_face st line descs V U Hparts Hidx).
    rewrite (triangulate_fan V U (faces st) HU). reflexivity.
  - now rewrite length_map, length_seq.
  - intros i Hi.
    rewrite nth_error_map, nth_error_seq.
    destruct (Nat.ltb_spec i (length V - 2)) as [_ | Hge]; [| lia].
    reflexivity.
Qed.

Lemma triangulation_emits_inverted_fan_witness :
  (exists tris : list face,
      parse_line empty_mesh "f 5/1 6/2 7/3 8/4 9/5"
      = Ok (Mesh [] [] ([] ++ tris))
      /\ length tris = 3%nat
      /\ forall i : nat, (i < 3)%nat ->
           nth_error tris i
           = Some (fan_triangle [5; 6; 7; 8; 9] [1; 2; 3; 4; 5] i))
  /\ parse_line empty_mesh "f 1 2 3 4"
     = Ok (Mesh [] [] [((1, 3, 2), None); ((1, 4, 3), None)]).
Proof.
  apply (triangulation_emits_inverted_fan empty_mesh
           "f 5/1 6/2 7/3 8/4 9/5" ["5/1"; "6/2"; "7/3"; "8/4"; "9/5"]
           [5; 6; 7; 8; 9] [1; 2; 3; 4; 5]).
  - reflexivity.
  - reflexivity.
  - simpl. lia.
  - right. reflexivity.
Defined.

(** ** Face descriptors *)

Lemma getitem_nat {A : Type} (l : list A) (k : nat) :
  getitem l (Z.of_nat k) = of_option IndexError (nth_error l k).
Proof.
  destruct (le_lt_dec (length l) k) as [Hge | Hlt].
  - rewrite getitem_past_end by exact Hge.
    apply nth_error_None in Hge. now rewrite Hge.
  - destruct (nth_error l k) as [x |] eqn:Hx.
    + rewrite (getitem_in_range l k x Hlt).
      now rewrite (nth_error_nth _ _ x Hx).
    + apply nth_error_None in Hx. lia.
Qed.

Ltac constant_index :=
  change (getitem ?l 0) with (getitem l (Z.of_nat 0));
  change (getitem ?l 1) with (getitem l (Z.of_nat 1));
  change (getitem ?l 2) with (getitem l (Z.of_nat 2));
  change (getitem ?l 3) with (getitem l (Z.of_nat 3));
  rewrite ?getitem_nat.

Lemma split_on_cons (sep : ascii) (s : string) :
  exists p ps, split_on sep s = p :: ps.
Proof.
  induction s as [| c s IH]; cbn.
  - eauto.
  - destruct (Ascii.eqb c sep); [eauto |].
    destruct IH as (p & ps & ->). eauto.
Qed.

Lemma face_vert_descriptor (V U : list Z) (vert : string) :
  face_vert (V, U) vert
  = match descriptor vert with
    | None => Raise ValueError
    | Some (v_idx, None) => Ok (V ++ [v_idx], U)
    | Some (v_idx, Some uv_idx) => Ok (V ++ [v_idx], U ++ [uv_idx])
    end.
Proof.
  unfold face_vert, descriptor.
  destruct (split_on_cons "/" vert) as (i0 & rest & ->).
  constant_index. cbn [nth_error of_option bind].
  unfold int. destruct (int_of_string i0) as [v_idx |]; cbn [of_option bind];
    [| reflexivity].
  destruct rest as [| i1 rest'].
  - reflexivity.
  - replace (1 <? Z.of_nat (length (i0 :: i1 :: rest'))) with true
      by (symmetry; apply Z.ltb_lt; cbn [length]; lia).
    cbn [nth_error of_option bind].
    destruct (truthy i1); [| reflexivity].
    destruct (int_of_string i1); reflexivity.
Qed.

Lemma face_indices_descriptors (verts : list string) (V0 U0 : list Z) :
  face_indices verts (V0, U0)
  = match descriptors verts with
    | Some (V, U) => Ok (V0 ++ V, U0 ++ U)
    | None => Raise ValueError
    end.
Proof.
  revert V0 U0. induction verts as [| vert rest IH]; intros V0 U0.
  - cbn. now rewrite !app_nil_r.
  - cbn [face_indices descriptors]. rewrite face_vert_descriptor.
    destruct (descriptor vert) as [[v_idx [uv_idx |]] |]; cbn [bind];
      [| | reflexivity].
    + rewrite IH. destruct (descriptors rest) as [[V U] |]; [| reflexivity].
      now rewrite <- !app_assoc.
    + rewrite IH. destruct (descriptors rest) as [[V U] |]; [| reflexivity].
      now rewrite <- !app_assoc.
Qed.

Lemma descriptors_lengths (verts : list string) (V U : list Z) :
  descriptors verts = Some (V, U) ->
  length V = length verts /\ (length U <= length V)%nat.
Proof.
  revert V U. induction verts as [| vert rest IH]; intros V U H.
  - cbn in H. injection H as <- <-. cbn. lia.
  - cbn [descriptors] in H.
    destruct (descriptor vert) as [[v_idx o] |]; [| discriminate].
    destruct (descriptors rest) as [[V' U'] |]; [| discriminate].
    injection H as <- <-.
    destruct (IH V' U' eq_refl) as [HV HU].
    destruct o; cbn [length]; lia.
Qed.

Lemma face_indices_lengths (verts : list string) (V U : list Z) :
  face_indices verts ([], []) = Ok (V, U) ->
  length V = length verts /\ (length U <= length V)%nat.
Proof.
  rewrite face_indices_descriptors.
  destruct (descriptors verts) as [[V' U'] |] eqn:Hd; [| discriminate].
  cbn [app]. intros H. injection H as <- <-.
  now apply descriptors_lengths.
Qed.

(** ** Faces with texture indices on some vertices only *)

Lemma triangulate_loop_short_uvs (V U : list Z) (n s : nat) (acc : list face) :
  (s + n + 2 <= length V)%nat ->
  (0 < n)%nat ->
  (0 < length U <= s + n + 1)%nat ->
  triangulate_loop V U (map Z.of_nat (seq s n)) acc = Raise IndexError.
Proof.
  revert s acc. induction n as [| n IH]; intros s acc HV Hn HU; [lia |].
  cbn [seq map triangulate_loop].
  replace 0 with (Z.of_nat 0) by reflexivity.
  replace (Z.of_nat s + 2) with (Z.of_nat (s + 2)) by lia.
  replace (Z.of_nat s + 1) with (Z.of_nat (s + 1)) by lia.
  rewrite !(getitem_in_range V _ 0) by lia. cbn [bind].
  destruct U as [| u0 U']; [cbn in HU; lia |].
  rewrite (getitem_in_range (u0 :: U') 0 0) by lia. cbn [bind].
  destruct (le_lt_dec (length (u0 :: U')) (s + 2)) as [Hshort | Hlong].
  - rewrite (getitem_past_end (u0 :: U') (s + 2) Hshort). reflexivity.
  - rewrite !(getitem_in_range (u0 :: U') _ 0) by lia. cbn [bind].
    apply IH; lia.
Qed.

Lemma triangulate_short_uvs (V U : list Z) (acc : list face) :
  (3 <= length V)%nat ->
  (0 < length U < length V)%nat ->
  triangulate V U acc = Raise IndexError.
Proof.
  intros HV HU. unfold triangulate, range.
  replace (Z.to_nat (Z.of_nat (length V) - 2)) with (length V - 2)%nat by lia.
  apply triangulate_loop_short_uvs; lia.
Qed.

(** C9. A face line with at least three vertex descriptors whose
    texture-index list is not empty but shorter than the vertex-index
    list stops the run with an [IndexError]; and a face line with at
    least three well-formed descriptors is accepted exactly when texture
    indices are on all of its vertices or on none. *)
Theorem mixed_uv_face_raises_index_error
    (st : mesh) (line : string) (descs : list string) (V U : list Z) :
  split (strip line) = "f" :: descs ->
  face_indices descs ([], []) = Ok (V, U) ->
  (3 <= length V)%nat ->
  ((0 < length U < length V)%nat -> parse_line st line = Raise IndexError)
  /\ ((exists st', parse_line st line = Ok st')
      <-> U = [] \/ length U = length V).
Proof.
  intros Hparts Hidx HV.
  rewrite (parse_line_face st line descs V U Hparts Hidx).
  assert (Hshort : (0 < length U < length V)%nat ->
                   (do faces' <- triangulate V U (faces st);
                    Ok (Mesh (vertices st) (uvs st) faces')) = Raise IndexError).
  { intros HU. now rewrite (triangulate_short_uvs V U (faces st) HV HU). }
  split; [exact Hshort |].
  split.
  - intros [st' Hok].
    destruct (face_indices_lengths descs V U Hidx) as [_ Hle].
    destruct U as [| u0 U']; [now left | right].
    destruct (Nat.eq_dec (length (u0 :: U')) (length V)) as [Heq | Hne];
      [exact Heq |].
    rewrite Hshort in Hok by (cbn [length] in *; lia). discriminate.
  - intros HU. rewrite (triangulate_fan V U (faces st) HU). cbn [bind]. eauto.
Qed.

Lemma mixed_uv_face_raises_index_error_witness :
  ((0 < 1 < 3)%nat -> parse_line empty_mesh "f 1/1 2 3" = Raise IndexError)
  /\ ((exists st', parse_line empty_mesh "f 1/1 2 3" = Ok st')
      <-> [1] = [] \/ 1%nat = 3%nat).
Proof.
  apply (mixed_uv_face_raises_index_error empty_mesh "f 1/1 2 3"
           ["1/1"; "2"; "3"] [1; 2; 3] [1]).
  - reflexivity.
  - reflexivity.
  - simpl. lia.
Defined.

(** ** Which lines stop the parser *)

Lemma descriptors_ok (verts : list string) :
  match descriptors verts with
  | Some (V, U) =>
      forallb descriptor_ok verts = true
      /\ length V = length verts /\ length U = uv_count verts
  | None => forallb descriptor_ok verts = false
  end.
Proof.
  induction verts as [| vert rest IH]; [cbn; auto |].
  cbn [descriptors forallb uv_count].
  change (descriptor_ok vert)
    with (match descriptor vert with Some _ => true | None => false end).
  change (has_uv vert)
    with (match descriptor vert with Some (_, Some _) => true | _ => false end).
  destruct (descriptor vert) as [[v_idx o] |]; [| reflexivity].
  destruct (descriptors rest) as [[V U] |].
  - destruct IH as (-> & HV & HU). destruct o; cbn [length andb]; auto with lia.
  - now rewrite IH.
Qed.

Lemma uv_count_le (verts : list string) : (uv_count verts <= length verts)%nat.
Proof.
  induction verts as [| vert rest IH]; cbn [uv_count length]; [lia |].
  destruct (has_uv vert); lia.
Qed.

Lemma triangulate_few (V U : list Z) (acc : list face) :
  (length V < 3)%nat -> triangulate V U acc = Ok acc.
Proof.
  intros HV. unfold triangulate, range.
  replace (Z.to_nat (Z.of_nat (length V) - 2)) with 0%nat by lia.
  reflexivity.
Qed.

Lemma face_line_decided (st : mesh) (descs : list string) :
  let r := do indexed <- face_indices descs ([], []);
           let '(face_verts, face_uvs) := indexed in
           do faces' <- triangulate face_verts face_uvs (faces st);
           Ok (Mesh (vertices st) (uvs st) faces') in
  if face_ok descs then exists st', r = Ok st' else exists e, r = Raise e.
Proof.
  cbv zeta. unfold face_ok. rewrite face_indices_descriptors.
  pose proof (descriptors_ok descs) as Hd.
  pose proof (uv_count_le descs) as Hle.
  destruct (descriptors descs) as [[V U] |]; [| rewrite Hd; cbn; eauto].
  destruct Hd as (-> & HV & HU). cbn [app bind andb].
  destruct (Nat.ltb_spec (length descs) 3) as [Hfew | Hmany]; cbn [orb].
  { rewrite triangulate_few by lia. cbn. eauto. }
  destruct (Nat.eqb_spec (uv_count descs) 0) as [Hnone | Hsome]; cbn [orb].
  { rewrite triangulate_fan by (left; now apply length_zero_iff_nil; lia).
    cbn. eauto. }
  destruct (Nat.eqb_spec (uv_count descs) (length descs)) as [Hall | Hmixed].
  { rewrite triangulate_fan by (right; lia). cbn. eauto. }
  rewrite triangulate_short_uvs by lia. cbn. eauto.
Qed.

Lemma parse_line_decided (st : mesh) (line : string) :
  if line_ok line
  then exists st', parse_line st line = Ok st'
  else exists e, parse_line st line = Raise e.
Proof.
  unfold line_ok, tokens, parse_line.
  destruct (split (strip line)) as [| p0 args]; [eauto |].
  destruct (String.eqb p0 "v").
  { unfold numbers_ok, float_, float_ok.
    destruct args as [| a1 [| a2 [| a3 rest]]]; constant_index;
      cbn [nth_error of_option bind length firstn forallb Nat.leb andb];
      repeat match goal with
        | |- context [float_of_string ?a] => destruct (float_of_string a)
        end;
      rewrite ?firstn_O; cbn [of_option bind andb forallb]; eauto. }
  destruct (String.eqb p0 "vt").
  { unfold numbers_ok, float_, float_ok.
    destruct args as [| a1 [| a2 rest]]; constant_index;
      cbn [nth_error of_option bind length firstn forallb Nat.leb andb];
      repeat match goal with
        | |- context [float_of_string ?a] => destruct (float_of_string a)
        end;
      rewrite ?firstn_O; cbn [of_option bind andb forallb]; eauto. }
  destruct (String.eqb p0 "f"); [| eauto].
  cbn [slice_from skipn]. change (skipn 0 args) with args.
  apply face_line_decided.
Qed.

Lemma parse_lines_raises_iff (st : mesh) (lines : list string) :
  (exists e, parse_lines st lines = Raise e)
  <-> exists line, In line lines /\ line_ok line = false.
Proof.
  revert st. induction lines as [| line rest IH]; intros st.
  - cbn. split; [intros [e He]; discriminate | intros (l & [] & _)].
  - cbn [parse_lines In].
    pose proof (parse_line_decided st line) as Hline.
    destruct (line_ok line) eqn:Hok.
    + destruct Hline as [st' ->]. cbn [bind]. rewrite IH.
      split.
      * intros (l & Hin & Hl). eauto.
      * intros (l & [<- | Hin] & Hl); [congruence | eauto].
    + destruct Hline as [e ->]. cbn [bind]. split; eauto.
Qed.

Lemma parse_line_ignored (st : mesh) (line : string) :
  ignored line -> parse_line st line = Ok st.
Proof.
  unfold ignored, tokens, parse_line.
  destruct (split (strip line)) as [| p0 args]; [reflexivity |].
  intros (Hv & Hvt & Hf).
  destruct (String.eqb_spec p0 "v"); [contradiction |].
  destruct (String.eqb_spec p0 "vt"); [contradiction |].
  destruct (String.eqb_spec p0 "f"); [contradiction |].
  reflexivity.
Qed.

(** C2, as the code has it. The parser stops with an uncaught exception
    exactly when some line is a [v] line without three float literals
    after the keyword, a [vt] line without two, or an [f] line with a
    vertex token whose first field, or whose non-empty second field, is
    not an integer literal, or with three or more vertex tokens of which
    some but not all carry a texture index. Blank lines and lines with any
    other leading token are passed over and leave the three lists as they
    were. *)
Theorem parser_aborts_exactly_on_malformed_geometry :
  (forall (st : mesh) (lines : list string),
      (exists e, parse_lines st lines = Raise e)
      <-> exists line, In line lines /\ line_ok line = false)
  /\ (forall (st : mesh) (line : string),
        ignored line -> parse_line st line = Ok st).
Proof.
  split.
  - exact parse_lines_raises_iff.
  - exact parse_line_ignored.
Qed.

Lemma parser_aborts_exactly_on_malformed_geometry_witness :
  ignored "vn 0 0 1" /\ parse_line empty_mesh "vn 0 0 1" = Ok empty_mesh.
Proof.
  assert (H : ignored "vn 0 0 1").
  { vm_compute. repeat split; discriminate. }
  split; [exact H |].
  exact (proj2 parser_aborts_exactly_on_malformed_geometry
           empty_mesh "vn 0 0 1" H).
Defined.

(** C2, as stated, fails in both directions: the line [f 1/x 2 3] stops
    the parser although it is not one of the stated causes, and a bare
    [f] line is one of the stated causes although the parser accepts it. *)
Lemma stated_abort_condition_is_not_exact :
  ((exists e, parse_lines empty_mesh ["f 1/x 2 3"] = Raise e)
   /\ forallb stated_line_ok ["f 1/x 2 3"] = true)
  /\ ((exists st', parse_lines empty_mesh ["f"] = Ok st')
      /\ forallb stated_line_ok ["f"] = false).
Proof.
  split; split.
  - exists ValueError. reflexivity.
  - reflexivity.
  - exists empty_mesh. reflexivity.
  - reflexivity.
Qed.

(** ** Serializer *)

Lemma str_app_cons (x : ascii) (a b : string) :
  String x a +:+ b = String x (a +:+ b).
Proof. reflexivity. Qed.

Lemma str_app_empty_l (a : string) : EmptyString +:+ a = a.
Proof. reflexivity. Qed.

Lemma str_app_assoc (a b c : string) : (a +:+ b) +:+ c = a +:+ (b +:+ c).
Proof.
  induction a as [| x a IH]; [reflexivity |].
  rewrite !str_app_cons. now rewrite IH.
Qed.

Lemma str_app_empty_r (a : string) : a +:+ EmptyString = a.
Proof.
  induction a as [| x a IH]; [reflexivity |].
  rewrite str_app_cons. now rewrite IH.
Qed.

Lemma face_entry_fallback (uvs : list uv) (tri : triple)
    (tri_uvs : option triple) :
  tri_uvs = None \/ uvs = [] ->
  face_entry uvs (tri, tri_uvs) = Ok (fallback_entry tri).
Proof.
  intros [-> | ->]; cbn [face_entry].
  - reflexivity.
  - destruct tri_uvs as [[[t0 t1] t2] |]; reflexivity.
Qed.

Lemma write_faces_no_uvs (fs : list face) (written : string) :
  write_faces [] fs written
  = (written +:+ String.concat EmptyString (map (fun f => fallback_entry (fst f)) fs),
     None).
Proof.
  revert written. induction fs as [| [tri tri_uvs] rest IH]; intros written.
  - cbn. now rewrite str_app_empty_r.
  - cbn [write_faces map fst].
    rewrite (face_entry_fallback [] tri tri_uvs) by now right.
    rewrite IH. f_equal.
    destruct rest as [| f rest'].
    + cbn [map String.concat]. now rewrite !str_app_empty_r.
    + cbn [map String.concat]. rewrite str_app_empty_l.
      now rewrite str_app_assoc.
Qed.

(** C3. A triangle without texture data, because its face had no texture
    indices or because the file has no [vt] line at all, is written with
    the literal triple [vec(0,0), vec(16,0), vec(16,16)] after its three
    indices and the constant [0]; when the file has no [vt] line this is
    so for every triangle of the face table, and the face loop cannot
    fail. *)
Theorem fallback_uv_triple (uvs : list uv) (a b c : Z)
    (tri_uvs : option triple) :
  tri_uvs = None \/ uvs = [] ->
  face_entry uvs ((a, b, c), tri_uvs)
  = Ok (tab +:+ "{" +:+ str_int a +:+ ", " +:+ str_int b +:+ ", "
        +:+ str_int c +:+ ", 0, vec(0,0), vec(16,0), vec(16,16)}," +:+ nl)
  /\ (uvs = [] ->
      forall (fs : list face) (written : string),
        write_faces uvs fs written
        = (written
           +:+ String.concat EmptyString
                 (map (fun f => fallback_entry (fst f)) fs),
           None)).
Proof.
  intros H. split.
  - etransitivity; [exact (face_entry_fallback uvs (a, b, c) tri_uvs H) |].
    unfold fallback_entry, tri_prefix.
    now rewrite !str_app_assoc.
  - intros -> fs written. apply write_faces_no_uvs.
Qed.

Lemma fallback_uv_triple_witness :
  face_entry [] ((1, 3, 2), Some (7, 9, 8))
  = Ok (tab +:+ "{1, 3, 2, 0, vec(0,0), vec(16,0), vec(16,16)}," +:+ nl)
  /\ (@nil uv = [] ->
      forall (fs : list face) (written : string),
        write_faces [] fs written
        = (written
           +:+ String.concat EmptyString
                 (map (fun f => fallback_entry (fst f)) fs),
           None)).
Proof.
  apply (fallback_uv_triple [] 1 3 2 (Some (7, 9, 8))).
  right. reflexivity.
Defined.

(** ** Indices in the face table *)

Lemma getitem_In {A : Type} (l : list A) (k : Z) (x : A) :
  getitem l k = Ok x -> In x l.
Proof.
  unfold getitem.
  destruct ((_ <? 0) || (_ <=? _)); [discriminate |].
  destruct (nth_error l _) as [y |] eqn:Hy; [| discriminate].
  cbn. intros H. injection H as <-. eapply nth_error_In, Hy.
Qed.

Ltac bind_ok H :=
  repeat match type of H with
    | bind ?m _ = Ok _ =>
        let E := fresh "E" in
        destruct m eqn:E; cbn [bind] in H; [| discriminate H]
    end.

Lemma triangulate_loop_members (P Q : Z -> Prop) (V U idxs : list Z)
    (acc r : list face) :
  Forall P V -> Forall Q U -> Forall (face_sat P Q) acc ->
  triangulate_loop V U idxs acc = Ok r ->
  Forall (face_sat P Q) r.
Proof.
  intros HV HU. rewrite List.Forall_forall in HV, HU.
  revert acc. induction idxs as [| i idxs IH]; intros acc Hacc H.
  - cbn in H. now injection H as <-.
  - cbn [triangulate_loop] in H. bind_ok H.
    destruct U as [| u0 U'].
    + apply IH in H; [exact H |].
      apply Forall_app. split; [exact Hacc |].
      constructor; [| constructor].
      cbn. repeat split; eauto using getitem_In.
    + bind_ok H.
      apply IH in H; [exact H |].
      apply Forall_app. split; [exact Hacc |].
      constructor; [| constructor].
      cbn. repeat split; eauto using getitem_In.
Qed.

Lemma parse_line_faces (P Q : Z -> Prop) (st st' : mesh) (line : string) :
  parse_line st line = Ok st' ->
  (forall descs V U,
      tokens line = "f" :: descs ->
      face_indices descs ([], []) = Ok (V, U) ->
      Forall P V /\ Forall Q U) ->
  Forall (face_sat P Q) (faces st) ->
  Forall (face_sat P Q) (faces st').
Proof.
  unfold parse_line, tokens. intros H Hf Hst.
  destruct (split (strip line)) as [| p0 args].
  { now injection H as <-. }
  destruct (String.eqb p0 "v").
  { bind_ok H. now injection H as <-. }
  destruct (String.eqb p0 "vt").
  { bind_ok H. now injection H as <-. }
  destruct (String.eqb_spec p0 "f") as [-> |].
  - cbn [slice_from skipn] in H. change (skipn 0 args) with args in H.
    bind_ok H. destruct a as [V U]. bind_ok H. injection H as <-.
    destruct (Hf args V U eq_refl E) as [HV HU]. cbn [faces].
    unfold triangulate in E0.
    eapply triangulate_loop_members; eauto.
  - now injection H as <-.
Qed.

Lemma parse_lines_faces (P Q : Z -> Prop) (lines : list string)
    (st st' : mesh) :
  parse_lines st lines = Ok st' ->
  (forall line descs V U,
      In line lines ->
      tokens line = "f" :: descs ->
      face_indices descs ([], []) = Ok (V, U) ->
      Forall P V /\ Forall Q U) ->
  Forall (face_sat P Q) (faces st) ->
  Forall (face_sat P Q) (faces st').
Proof.
  revert st. induction lines as [| line rest IH]; intros st H Hf Hst.
  - cbn in H. now injection H as <-.
  - cbn [parse_lines] in H. bind_ok H.
    eapply IH; [exact H | |].
    + intros l descs V U Hin. apply Hf. now right.
    + eapply parse_line_faces; [exact E | | exact Hst].
      intros descs V U. apply Hf. now left.
Qed.

Lemma face_entry_prefix (uvs : list uv) (tri : triple)
    (tri_uvs : option triple) (text : string) :
  face_entry uvs (tri, tri_uvs) = Ok text ->
  exists rest, text = tri_prefix tri +:+ rest.
Proof.
  cbn [face_entry]. intros H.
  destruct tri_uvs as [[[t0 t1] t2] |]; [destruct uvs as [| uv0 uvs'] |].
  - injection H as <-. eauto.
  - bind_ok H. injection H as <-. eauto.
  - injection H as <-. eauto.
Qed.

(** C6. Every entry written to the face table starts with the three
    vertex indices of its triangle, printed as the integers that were
    parsed, then the constant [0]. Every index of a triangle in [faces]
    is one that the parser read from a face line, unchanged. So, when
    every vertex index read from a face line lies in [1, len(vertices)]
    and every texture index in [1, len(uvs)], every index of every
    triangle in [faces] does. *)
Theorem face_entries_carry_parsed_indices (content : string) (m : mesh) :
  parse content = Ok m ->
  (forall line descs V U,
      In line (readlines content) ->
      tokens line = "f" :: descs ->
      face_indices descs ([], []) = Ok (V, U) ->
      Forall (in_range (length (vertices m))) V
      /\ Forall (in_range (length (uvs m))) U) ->
  Forall (face_sat (in_range (length (vertices m)))
                   (in_range (length (uvs m)))) (faces m)
  /\ Forall (face_sat (parsed_vertex_index content)
                      (parsed_uv_index content)) (faces m)
  /\ forall a b c tri_uvs text,
       In ((a, b, c), tri_uvs) (faces m) ->
       face_entry (uvs m) ((a, b, c), tri_uvs) = Ok text ->
       exists rest,
         text = tab +:+ "{" +:+ str_int a +:+ ", " +:+ str_int b +:+ ", "
                +:+ str_int c +:+ ", 0, " +:+ rest.
Proof.
  intros Hparse Hvalid. split; [| split].
  - eapply parse_lines_faces; [exact Hparse | exact Hvalid | constructor].
  - eapply parse_lines_faces; [exact Hparse | | constructor].
    intros line descs V U Hin Htok Hidx.
    split; apply List.Forall_forall; intros x Hx;
      exists line, descs, V, U; auto.
  - intros a b c tri_uvs text _ Hentry.
    destruct (face_entry_prefix _ _ _ _ Hentry) as [rest ->].
    exists rest. unfold tri_prefix. now rewrite !str_app_assoc.
Qed.

Lemma face_entries_carry_parsed_indices_witness :
  Forall (face_sat (in_range 3) (in_range 3)) (faces textured_triangle)
  /\ Forall (face_sat (parsed_vertex_index textured_triangle_obj)
                      (parsed_uv_index textured_triangle_obj))
            (faces textured_triangle)
  /\ forall a b c tri_uvs text,
       In ((a, b, c), tri_uvs) (faces textured_triangle) ->
       face_entry (uvs textured_triangle) ((a, b, c), tri_uvs) = Ok text ->
       exists rest,
         text = tab +:+ "{" +:+ str_int a +:+ ", " +:+ str_int b +:+ ", "
                +:+ str_int c +:+ ", 0, " +:+ rest.
Proof.
  apply (face_entries_carry_parsed_indices textured_triangle_obj
           textured_triangle).
  - vm_compute. reflexivity.
  - intros line descs V U Hin Htok Hidx.
    vm_compute in Hin.
    repeat (destruct Hin as [<- | Hin];
            [vm_compute in Htok; try discriminate Htok |]);
      [| contradiction].
    injection Htok as <-. vm_compute in Hidx. injection Hidx as <- <-.
    split; repeat constructor; unfold in_range; cbn; lia.
Defined.

(** ** Fixed-point presentation *)

Lemma str_length_app (a b : string) :
  String.length (a +:+ b) = (String.length a + String.length b)%nat.
Proof.
  induction a as [| x a IH]; [reflexivity |].
  rewrite str_app_cons. cbn [String.length]. now rewrite IH.
Qed.

Lemma all_digits_app (a b : string) :
  all_digits (a +:+ b) = all_digits a && all_digits b.
Proof.
  induction a as [| x a IH]; [reflexivity |].
  rewrite str_app_cons. cbn [all_digits]. rewrite IH. apply andb_assoc.
Qed.

Lemma isdigit_digit_char (d : Z) : isdigit (digit_char d) = true.
Proof.
  unfold digit_char.
  assert (H : 0 <= d mod 10 < 10) by (apply Z.mod_pos_bound; lia).
  assert (Hcases : d mod 10 = 0 \/ d mod 10 = 1 \/ d mod 10 = 2
                   \/ d mod 10 = 3 \/ d mod 10 = 4 \/ d mod 10 = 5
                   \/ d mod 10 = 6 \/ d mod 10 = 7 \/ d mod 10 = 8
                   \/ d mod 10 = 9) by lia.
  repeat destruct Hcases as [-> | Hcases]; try rewrite Hcases; reflexivity.
Qed.

Lemma frac_digits_shape (n : nat) (k : Z) :
  String.length (frac_digits n k) = n /\ all_digits (frac_digits n k) = true.
Proof.
  revert k. induction n as [| n IH]; intros k; [split; reflexivity |].
  cbn [frac_digits]. destruct (IH (k / 10)) as [Hlen Hdig].
  rewrite str_length_app, all_digits_app, Hlen, Hdig.
  cbn [String.length all_digits andb]. rewrite isdigit_digit_char.
  split; [lia | reflexivity].
Qed.

Lemma fixed_text_decimals (n : nat) (k : Z) (sign : string) :
  has_decimals (S n) (sign +:+ fixed_text (S n) k).
Proof.
  unfold fixed_text.
  exists (sign +:+ str_int (k / 10 ^ Z.of_nat (S n))),
         (frac_digits (S n) (k mod 10 ^ Z.of_nat (S n))).
  split; [now rewrite str_app_assoc | apply frac_digits_shape].
Qed.

Lemma format_f_decimals (n : nat) (x : float) :
  is_finite x = true -> has_decimals (S n) (format_f (S n) x).
Proof.
  destruct x as [neg | neg | | neg m e]; cbn [is_finite]; try discriminate;
    intros _; cbn [format_f]; apply fixed_text_decimals.
Qed.

Lemma no_decimals_in_inf : ~ has_decimals 2 "inf".
Proof.
  intros (ip & fp & H & _).
  destruct ip as [| c1 [| c2 [| c3 [| c4 ip]]]]; discriminate H.
Qed.

Lemma face_entry_textured (uvs : list uv) (tri : triple) (t0 t1 t2 : Z)
    (d : uv) :
  in_range (length uvs) t0 ->
  in_range (length uvs) t1 ->
  in_range (length uvs) t2 ->
  face_entry uvs (tri, Some (t0, t1, t2))
  = Ok (tri_prefix tri
        +:+ uv_vec (nth (Z.to_nat (t0 - 1)) uvs d) +:+ ", "
        +:+ uv_vec (nth (Z.to_nat (t1 - 1)) uvs d) +:+ ", "
        +:+ uv_vec (nth (Z.to_nat (t2 - 1)) uvs d) +:+ "}," +:+ nl).
Proof.
  unfold in_range. intros H0 H1 H2. cbn [face_entry].
  destruct uvs as [| uv0 uvs']; [cbn in H0; lia |].
  rewrite !(getitem_one_based (uv0 :: uvs') _ d) by assumption.
  reflexivity.
Qed.

(** C7, as the code has it. A triangle whose three texture indices lie
    in [1, len(uvs)] is written with the pairs found at these 1-based
    positions of [uvs]; a pair [(u, v)] is written as
    [vec(U,V)] where [U] is [u * 16] and [V] is [(1 - v) * 16], both in
    the [.2f] presentation; a vertex is written on a line of its own,
    after one tab, with its three coordinates in the [.4f] presentation.
    The [.Nf] presentation of a finite number ends with a decimal point
    and exactly [N] digits. (An infinite or NaN value is written as
    [inf], [-inf] or [nan], without digits.) *)
Theorem uv_pairs_and_positions_fixed_point (uvs : list uv) (tri : triple)
    (t0 t1 t2 : Z) (d : uv) :
  in_range (length uvs) t0 ->
  in_range (length uvs) t1 ->
  in_range (length uvs) t2 ->
  face_entry uvs (tri, Some (t0, t1, t2))
  = Ok (tri_prefix tri
        +:+ uv_vec (nth (Z.to_nat (t0 - 1)) uvs d) +:+ ", "
        +:+ uv_vec (nth (Z.to_nat (t1 - 1)) uvs d) +:+ ", "
        +:+ uv_vec (nth (Z.to_nat (t2 - 1)) uvs d) +:+ "}," +:+ nl)
  /\ (forall u v : float,
        uv_vec (u, v)
        = "vec(" +:+ format_f 2 (fmul u (float_of_Z 16)) +:+ ","
          +:+ format_f 2 (fmul (fsub (float_of_Z 1) v) (float_of_Z 16))
          +:+ ")")
  /\ (forall x y z : float,
        vertex_entry (x, y, z)
        = tab +:+ "vec(" +:+ format_f 4 x +:+ ", " +:+ format_f 4 y
          +:+ ", " +:+ format_f 4 z +:+ ")," +:+ nl)
  /\ (forall x : float,
        is_finite x = true ->
        has_decimals 2 (format_f 2 x) /\ has_decimals 4 (format_f 4 x)).
Proof.
  intros H0 H1 H2. split; [| split; [| split]].
  - now apply face_entry_textured.
  - reflexivity.
  - reflexivity.
  - intros x Hx. split; now apply format_f_decimals.
Qed.

Lemma uv_pairs_and_positions_fixed_point_witness :
  face_entry (uvs textured_triangle) ((1, 3, 2), Some (1, 3, 2))
  = Ok (tab +:+ "{1, 3, 2, 0, vec(0.00,16.00), vec(4.00,0.00), "
        +:+ "vec(16.00,16.00)}," +:+ nl)
  /\ (forall u v : float,
        uv_vec (u, v)
        = "vec(" +:+ format_f 2 (fmul u (float_of_Z 16)) +:+ ","
          +:+ format_f 2 (fmul (fsub (float_of_Z 1) v) (float_of_Z 16))
          +:+ ")")
  /\ (forall x y z : float,
        vertex_entry (x, y, z)
        = tab +:+ "vec(" +:+ format_f 4 x +:+ ", " +:+ format_f 4 y
          +:+ ", " +:+ format_f 4 z +:+ ")," +:+ nl)
  /\ (forall x : float,
        is_finite x = true ->
        has_decimals 2 (format_f 2 x) /\ has_decimals 4 (format_f 4 x)).
Proof.
  apply (uv_pairs_and_positions_fixed_point (uvs textured_triangle)
           (1, 3, 2) 1 3 2 (S754_zero false, S754_zero false));
    unfold in_range; cbn; lia.
Defined.

(** C7, as stated, fails for a texture coordinate that is not finite:
    the entry of the triangle of [infinite_uv_obj] has the component
    [inf], which has no decimal digits. *)
Lemma infinite_uv_has_no_decimals :
  parse infinite_uv_obj = Ok infinite_uv_mesh
  /\ face_entry (uvs infinite_uv_mesh) ((1, 3, 2), Some (1, 1, 1))
     = Ok (tab +:+ "{1, 3, 2, 0, vec(inf,16.00), vec(inf,16.00), "
           +:+ "vec(inf,16.00)}," +:+ nl)
  /\ format_f 2 (fmul (S754_infinity false) (float_of_Z 16)) = "inf"
  /\ ~ has_decimals 2 "inf".
Proof.
  split; [| split; [| split]].
  - vm_compute. reflexivity.
  - vm_compute. reflexivity.
  - reflexivity.
  - exact no_decimals_in_inf.
Qed.

(** ** Paths *)

Lemma str_take_drop (n : nat) (s : string) : str_take n s +:+ str_drop n s = s.
Proof.
  revert s. induction n as [| n IH]; intros s; [reflexivity |].
  destruct s as [| c s]; [reflexivity |].
  cbn [str_take str_drop]. rewrite str_app_cons. now rewrite IH.
Qed.

Lemma splitext_app (p : string) : fst (splitext p) +:+ snd (splitext p) = p.
Proof.
  unfold splitext.
  destruct (rfind "/" p <? rfind "." p); [| apply str_app_empty_r].
  destruct (has_non_dot _ _); [apply str_take_drop | apply str_app_empty_r].
Qed.

(** ** The command line *)

(** C4. An existing input whose extension is [.fbx] in any letter case
    gets the three lines of guidance and exit status 1, whatever the file
    holds, whether or not the FBX binding could be imported, and with or
    without an output argument; no file is touched. *)
Theorem fbx_input_always_rejected (fbx_importable : bool)
    (prog input_file : string) (rest : list string)
    (fs : gmap string string) (content : string) :
  fs !! input_file = Some content ->
  lower (snd (splitext input_file)) = ".fbx" ->
  script fbx_importable (prog :: input_file :: rest) fs
  = Outcome fbx_guidance (SysExit 1) fs.
Proof.
  intros Hfile Hext. unfold script, main, path_exists.
  rewrite Hfile, Hext. reflexivity.
Qed.

Lemma fbx_input_always_rejected_witness :
  script true ["fbx_to_lua.py"; "dir/Building.FBX"; "out.lua"]
         {[ "dir/Building.FBX" := "Kaydara FBX Binary" ]}
  = Outcome fbx_guidance (SysExit 1)
            {[ "dir/Building.FBX" := "Kaydara FBX Binary" ]}.
Proof.
  apply (fbx_input_always_rejected true "fbx_to_lua.py" "dir/Building.FBX"
           ["out.lua"] {[ "dir/Building.FBX" := "Kaydara FBX Binary" ]}
           "Kaydara FBX Binary").
  - vm_compute. reflexivity.
  - vm_compute. reflexivity.
Defined.

(** C5. Without a positional argument the script prints the usage text
    and exits with status 1. With an input path that does not exist it
    prints the file-not-found line and exits with status 1; no file is
    read. With an existing input whose lower-cased extension is neither
    [.fbx] nor [.obj] it prints the two unsupported-format lines and exits
    with status 1. With an existing input whose lower-cased extension is
    [.obj] it does what [convert_obj_to_lua] does. *)
Theorem command_line_dispatch (fbx_importable : bool)
    (fs : gmap string string) :
  (forall argv : list string,
      (length argv < 2)%nat ->
      script fbx_importable argv fs = Outcome usage (SysExit 1) fs)
  /\ (forall (prog input_file : string) (rest : list string),
        fs !! input_file = None ->
        script fbx_importable (prog :: input_file :: rest) fs
        = Outcome ["Error: File not found: " +:+ input_file] (SysExit 1) fs)
  /\ (forall (prog input_file : string) (rest : list string) (content : string),
        fs !! input_file = Some content ->
        lower (snd (splitext input_file)) <> ".fbx" ->
        lower (snd (splitext input_file)) <> ".obj" ->
        script fbx_importable (prog :: input_file :: rest) fs
        = Outcome
            [ "Error: Unsupported file format: "
              +:+ lower (snd (splitext input_file));
              "Supported: .fbx, .obj" ]
            (SysExit 1) fs)
  /\ (forall (prog input_file : string) (rest : list string) (content : string),
        fs !! input_file = Some content ->
        lower (snd (splitext input_file)) = ".obj" ->
        script fbx_importable (prog :: input_file :: rest) fs
        = convert_obj_to_lua input_file (head rest) fs).
Proof.
  unfold script, main, path_exists. repeat split.
  - intros [| prog [| input_file rest]] Hlen; cbn [length] in Hlen;
      [reflexivity | reflexivity | lia].
  - intros prog input_file rest ->. reflexivity.
  - intros prog input_file rest content -> Hfbx Hobj. cbn [negb].
    destruct (String.eqb_spec (lower (snd (splitext input_file))) ".fbx");
      [contradiction |].
    destruct (String.eqb_spec (lower (snd (splitext input_file))) ".obj");
      [contradiction |].
    reflexivity.
  - intros prog input_file rest content -> ->. cbn [negb].
    destruct rest; reflexivity.
Qed.

Lemma command_line_dispatch_witness :
  script false ["fbx_to_lua.py"] {[ "a.obj" := "f 1 2 3" ]}
  = Outcome usage (SysExit 1) {[ "a.obj" := "f 1 2 3" ]}
  /\ script false ["fbx_to_lua.py"; "b.obj"] {[ "a.obj" := "f 1 2 3" ]}
     = Outcome ["Error: File not found: b.obj"] (SysExit 1)
               {[ "a.obj" := "f 1 2 3" ]}
  /\ script false ["fbx_to_lua.py"; "a.stl"] {[ "a.stl" := "solid" ]}
     = Outcome ["Error: Unsupported file format: .stl"; "Supported: .fbx, .obj"]
               (SysExit 1) {[ "a.stl" := "solid" ]}
  /\ script false ["fbx_to_lua.py"; "a.OBJ"] {[ "a.OBJ" := "f 1 2 3" ]}
     = convert_obj_to_lua "a.OBJ" None {[ "a.OBJ" := "f 1 2 3" ]}.
Proof.
  split; [| split; [| split]].
  - apply (proj1 (command_line_dispatch false {[ "a.obj" := "f 1 2 3" ]})
             ["fbx_to_lua.py"]).
    simpl. lia.
  - apply (proj1 (proj2 (command_line_dispatch false {[ "a.obj" := "f 1 2 3" ]}))
             "fbx_to_lua.py" "b.obj" []).
    vm_compute. reflexivity.
  - apply (proj1 (proj2 (proj2 (command_line_dispatch false {[ "a.stl" := "solid" ]})))
             "fbx_to_lua.py" "a.stl" [] "solid").
    + vm_compute. reflexivity.
    + vm_compute. discriminate.
    + vm_compute. discriminate.
  - apply (proj2 (proj2 (proj2 (command_line_dispatch false {[ "a.OBJ" := "f 1 2 3" ]})))
             "fbx_to_lua.py" "a.OBJ" [] "f 1 2 3").
    + vm_compute. reflexivity.
    + vm_compute. reflexivity.
Defined.

(** ** The output file *)

Lemma convert_obj_to_lua_writes_one_path (obj_path : string)
    (output_path : option string) (fs : gmap string string) (p : string) :
  p <> default_output obj_path output_path ->
  files (convert_obj_to_lua obj_path output_path fs) !! p = fs !! p.
Proof.
  intros Hp. unfold convert_obj_to_lua.
  destruct (fs !! obj_path) as [content |]; [| reflexivity].
  destruct (parse content) as [m | e]; [| reflexivity].
  destruct (write_lua obj_path m) as [written [e |]]; cbn [files];
    now rewrite lookup_insert_ne.
Qed.

Lemma convert_obj_to_lua_finished (obj_path : string)
    (output_path : option string) (fs : gmap string string) :
  status (convert_obj_to_lua obj_path output_path fs) = Finished ->
  exists content m written,
    fs !! obj_path = Some content
    /\ parse content = Ok m
    /\ write_lua obj_path m = (written, None)
    /\ files (convert_obj_to_lua obj_path output_path fs)
       = <[default_output obj_path output_path := written]> fs
    /\ head (stdout (convert_obj_to_lua obj_path output_path fs))
       = Some ("Converted " +:+ obj_path +:+ " -> "
               +:+ default_output obj_path output_path).
Proof.
  unfold convert_obj_to_lua.
  destruct (fs !! obj_path) as [content |]; [| discriminate].
  destruct (parse content) as [m | e] eqn:Hparse; [| discriminate].
  destruct (write_lua obj_path m) as [written [e |]] eqn:Hwrite;
    [discriminate |].
  intros _. exists content, m, written. cbn [files stdout].
  repeat split; assumption || reflexivity.
Qed.

(** C8. With exactly one positional argument the output path is the
    input path with its extension, in the sense of [os.path.splitext],
    replaced by [.lua]: the run changes no other path, and a run that
    finishes has written that path and reports it. For [model.obj] the
    output path is [model.lua], and a run on a well-formed [model.obj]
    writes [model.lua]. *)
Theorem default_output_replaces_extension (prog input_file : string)
    (fs : gmap string string) :
  fst (splitext input_file) +:+ snd (splitext input_file) = input_file
  /\ default_output input_file None = fst (splitext input_file) +:+ ".lua"
  /\ (forall p : string,
        p <> fst (splitext input_file) +:+ ".lua" ->
        files (main [prog; input_file] fs) !! p = fs !! p)
  /\ (status (main [prog; input_file] fs) = Finished ->
      exists written : string,
        files (main [prog; input_file] fs)
        = <[fst (splitext input_file) +:+ ".lua" := written]> fs
        /\ head (stdout (main [prog; input_file] fs))
           = Some ("Converted " +:+ input_file +:+ " -> "
                   +:+ fst (splitext input_file) +:+ ".lua"))
  /\ splitext "model.obj" = ("model", ".obj")
  /\ default_output "model.obj" None = "model.lua"
  /\ main ["fbx_to_lua.py"; "model.obj"]
          {[ "model.obj" := textured_triangle_obj ]}
     = Outcome
         ["Converted model.obj -> model.lua"; "Vertices: 3, Faces: 1"]
         Finished
         (<["model.lua" := fst (write_lua "model.obj" textured_triangle)]>
            {[ "model.obj" := textured_triangle_obj ]}).
Proof.
  split; [apply splitext_app |].
  split; [reflexivity |].
  split; [| split; [| split; [| split]]]; [| | reflexivity | reflexivity |].
  3: { vm_compute. reflexivity. }
  - intros p Hp. unfold main.
    destruct (path_exists fs input_file); cbn [negb]; [| reflexivity].
    destruct (String.eqb _ ".fbx"); [reflexivity |].
    destruct (String.eqb _ ".obj"); [| reflexivity].
    now apply convert_obj_to_lua_writes_one_path.
  - unfold main.
    destruct (path_exists fs input_file); cbn [negb]; [| discriminate].
    destruct (String.eqb _ ".fbx"); [discriminate |].
    destruct (String.eqb _ ".obj"); [| discriminate].
    intros Hfin.
    destruct (convert_obj_to_lua_finished input_file None fs Hfin)
      as (content & m & written & _ & _ & _ & Hfiles & Hout).
    exists written. split; [exact Hfiles | exact Hout].
Qed.

(** C10. The output file is opened only after the whole input has been
    parsed: when the parser stops with an exception, the run ends with
    that exception, has printed nothing and leaves every file, the one at
    the output path included, as it was. *)
Theorem failed_parse_leaves_files_untouched (obj_path : string)
    (output_path : option string) (fs : gmap string string)
    (content : string) (e : exn) :
  fs !! obj_path = Some content ->
  parse content = Raise e ->
  convert_obj_to_lua obj_path output_path fs = Outcome [] (Uncaught e) fs
  /\ files (convert_obj_to_lua obj_path output_path fs)
       !! default_output obj_path output_path
     = fs !! default_output obj_path output_path.
Proof.
  intros Hfile Hparse.
  assert (H : convert_obj_to_lua obj_path output_path fs
              = Outcome [] (Uncaught e) fs).
  { unfold convert_obj_to_lua. now rewrite Hfile, Hparse. }
  split; [exact H | now rewrite H].
Qed.

Lemma failed_parse_leaves_files_untouched_witness :
  convert_obj_to_lua "bad.obj" None stale_fs
  = Outcome [] (Uncaught IndexError) stale_fs
  /\ files (convert_obj_to_lua "bad.obj" None stale_fs)
       !! default_output "bad.obj" None
     = stale_fs !! default_output "bad.obj" None.
Proof.
  apply (failed_parse_leaves_files_untouched "bad.obj" None stale_fs
           "f 1/1 2 3" IndexError).
  - vm_compute. reflexivity.
  - vm_compute. reflexivity.
Defined.

(** ** Runs on concrete files *)

(** A single triangle without texture coordinates: the entry has the
    inverted order and the fallback triple, and the run reports the
    derived output path. *)
Example single_triangle_run :
  let obj := "v 0 0 0" +:+ nl +:+ "v 1 0 0" +:+ nl +:+ "v 0 1 0" +:+ nl
             +:+ "f 1 2 3" +:+ nl in
  let lua := "-- Auto-generated from: model.obj" +:+ nl
             +:+ "-- Picotron 3D Engine mesh format" +:+ nl
             +:+ nl
             +:+ "local mesh_verts = {" +:+ nl
             +:+ tab +:+ "vec(0.0000, 0.0000, 0.0000)," +:+ nl
             +:+ tab +:+ "vec(1.0000, 0.0000, 0.0000)," +:+ nl
             +:+ tab +:+ "vec(0.0000, 1.0000, 0.0000)," +:+ nl
             +:+ "}" +:+ nl
             +:+ nl
             +:+ "local mesh_faces = {" +:+ nl
             +:+ tab +:+ "{1, 3, 2, 0, vec(0,0), vec(16,0), vec(16,16)}," +:+ nl
             +:+ "}" +:+ nl
             +:+ nl
             +:+ "return {" +:+ nl
             +:+ tab +:+ "verts = mesh_verts," +:+ nl
             +:+ tab +:+ "faces = mesh_faces," +:+ nl
             +:+ tab +:+ "name = " +:+ quote +:+ "mesh" +:+ quote +:+ nl
             +:+ "}" +:+ nl in
  script false ["fbx_to_lua.py"; "meshes/model.obj"] {[ "meshes/model.obj" := obj ]}
  = Outcome
      [ "Converted meshes/model.obj -> meshes/model.lua";
        "Vertices: 3, Faces: 1" ]
      Finished
      (<["meshes/model.lua" := lua]> {[ "meshes/model.obj" := obj ]}).
Proof. vm_compute. reflexivity. Qed.

(** A texture index past the end of [uvs] stops the run while the output
    file is being written: what was written before the entry stays in the
    file. *)
Example unresolved_uv_index_run :
  let obj := "v 0 0 0" +:+ nl +:+ "vt 0 0" +:+ nl +:+ "f 1/1 1/2 1/1" +:+ nl in
  let out := script false ["fbx_to_lua.py"; "m.obj"] {[ "m.obj" := obj ]} in
  status out = Uncaught IndexError
  /\ files out !! "m.lua"
     = Some ("-- Auto-generated from: m.obj" +:+ nl
             +:+ "-- Picotron 3D Engine mesh format" +:+ nl
             +:+ nl
             +:+ "local mesh_verts = {" +:+ nl
             +:+ tab +:+ "vec(0.0000, 0.0000, 0.0000)," +:+ nl
             +:+ "}" +:+ nl
             +:+ nl
             +:+ "local mesh_faces = {" +:+ nl).
Proof. vm_compute. split; reflexivity. Qed.

(** The builtins on a few literals. *)
Example float_literals :
  map float_of_string ["0.1"; "-1e3"; ".5"; "1_0."; "INF"; "1e"; "1_.5"; "x"]
  = [ Some (S754_finite false 7205759403792794 (-56));
      Some (S754_finite true 8796093022208000 (-43));
      Some (S754_finite false 4503599627370496 (-53));
      Some (S754_finite false 5629499534213120 (-49));
      Some (S754_infinity false);
      None; None; None ].
Proof. vm_compute. reflexivity. Qed.

Example int_literals :
  map int_of_string ["12"; "-3"; "+07"; "1_000"; "1__0"; "_1"; "1.0"; "0x1f"]
  = [Some 12; Some (-3); Some 7; Some 1000; None; None; None; None].
Proof. vm_compute. reflexivity. Qed.

Example fixed_point_texts :
  map (fun s => option_map (format_f 2) (float_of_string s))
      ["0.125"; "0.375"; "2.675"; "-0.001"; "1e22"; "nan"; "-inf"]
  = [ Some "0.12"; Some "0.38"; Some "2.67"; Some "-0.00";
      Some "10000000000000000000000.00"; Some "nan"; Some "-inf" ].
Proof. vm_compute. reflexivity. Qed.

Example splitext_cases :
  map splitext ["model.obj"; "a/b.c/d"; ".bashrc"; "a.tar.gz"; "x/..a.b"]
  = [ ("model", ".obj"); ("a/b.c/d", EmptyString); (".bashrc", EmptyString);
      ("a.tar", ".gz"); ("x/..a", ".b") ].
Proof. vm_compute. reflexivity. Qed.

(** * Further properties of the code *)

(** ** Whitespace around a line *)

Lemma split_all_space (w : string) : all_space w = true -> split w = [].
Proof.
  induction w as [| c w IH]; [reflexivity |].
  cbn [all_space split]. intros [Hc Hw]%andb_prop.
  rewrite Hc. auto.
Qed.

Lemma split_space_before (w s : string) :
  all_space w = true -> split (w +:+ s) = split s.
Proof.
  induction w as [| c w IH]; [reflexivity |].
  cbn [all_space]. intros [Hc Hw]%andb_prop.
  rewrite str_app_cons. cbn [split]. rewrite Hc. auto.
Qed.

Lemma split_space_after (w s : string) :
  all_space w = true -> split (s +:+ w) = split s.
Proof.
  intros Hw. induction s as [| c s IH].
  - rewrite str_app_empty_l. now apply split_all_space.
  - rewrite str_app_cons. cbn [split].
    destruct (isspace c); [exact IH |].
    destruct s as [| c' s'].
    + rewrite str_app_empty_l in *.
      destruct w as [| cw w']; [reflexivity |].
      cbn [all_space] in Hw. apply andb_prop in Hw as [Hcw Hw'].
      rewrite Hcw. f_equal. exact IH.
    + rewrite str_app_cons in *.
      destruct (isspace c'); now rewrite IH.
Qed.

Lemma lstrip_space (s : string) :
  exists w, all_space w = true /\ s = w +:+ lstrip s.
Proof.
  induction s as [| c s (w & Hw & IH)].
  - exists EmptyString. split; reflexivity.
  - cbn [lstrip]. destruct (isspace c) eqn:Hc.
    + exists (String c w). split; [cbn [all_space]; now rewrite Hc |].
      rewrite str_app_cons. now f_equal.
    + exists EmptyString. split; reflexivity.
Qed.

Lemma rstrip_space (s : string) :
  exists w, all_space w = true /\ s = rstrip s +:+ w.
Proof.
  induction s as [| c s (w & Hw & IH)].
  - exists EmptyString. split; reflexivity.
  - cbn [rstrip]. destruct (rstrip s) as [| c' r] eqn:Hr.
    + rewrite str_app_empty_l in IH. subst w.
      destruct (isspace c) eqn:Hc.
      * exists (String c s). split; [cbn [all_space]; now rewrite Hc |].
        reflexivity.
      * exists s. split; [exact Hw | reflexivity].
    + exists w. split; [exact Hw |].
      rewrite str_app_cons. now f_equal.
Qed.

Lemma tokens_split (s : string) : tokens s = split s.
Proof.
  unfold tokens, strip.
  destruct (lstrip_space s) as (w1 & Hw1 & H1).
  destruct (rstrip_space (lstrip s)) as (w2 & Hw2 & H2).
  rewrite H1 at 2. rewrite (split_space_before w1 _ Hw1).
  rewrite H2 at 2. now rewrite (split_space_after w2 _ Hw2).
Qed.

(** X1. Whitespace before and after a line, such as indentation, a
    carriage return or the line terminator, does not change what the
    parser does with the line; the call of [strip] before [split] changes
    nothing. *)
Theorem surrounding_whitespace_is_insignificant (st : mesh)
    (before line after : string) :
  all_space before = true ->
  all_space after = true ->
  parse_line st (before +:+ line +:+ after) = parse_line st line
  /\ split (strip line) = split line.
Proof.
  intros Hb Ha. split; [| apply tokens_split].
  unfold parse_line. fold (tokens (before +:+ line +:+ after)).
  fold (tokens line). rewrite !tokens_split.
  rewrite (split_space_before before _ Hb).
  now rewrite (split_space_after after _ Ha).
Qed.

Lemma surrounding_whitespace_is_insignificant_witness :
  parse_line empty_mesh
    ((tab +:+ " ") +:+ "f 1 2 3" +:+ (String "013" nl))
  = parse_line empty_mesh "f 1 2 3"
  /\ split (strip "f 1 2 3") = split "f 1 2 3".
Proof.
  apply (surrounding_whitespace_is_insignificant empty_mesh
           (tab +:+ " ") "f 1 2 3" (String "013" nl)).
  - reflexivity.
  - reflexivity.
Defined.

(** ** The exception of a malformed line *)

Lemma face_line_error (st : mesh) (descs : list string) :
  let r := do indexed <- face_indices descs ([], []);
           let '(face_verts, face_uvs) := indexed in
           do faces' <- triangulate face_verts face_uvs (faces st);
           Ok (Mesh (vertices st) (uvs st) faces') in
  match face_error descs with
  | Some e => r = Raise e
  | None => exists st', r = Ok st'
  end.
Proof.
  cbv zeta. unfold face_error, face_ok. rewrite face_indices_descriptors.
  pose proof (descriptors_ok descs) as Hd.
  pose proof (uv_count_le descs) as Hle.
  destruct (descriptors descs) as [[V U] |]; [| now rewrite Hd].
  destruct Hd as (-> & HV & HU). cbn [app bind andb].
  destruct (Nat.ltb_spec (length descs) 3) as [Hfew | Hmany]; cbn [orb].
  { rewrite triangulate_few by lia. cbn. eauto. }
  destruct (Nat.eqb_spec (uv_count descs) 0) as [Hnone | Hsome]; cbn [orb].
  { rewrite triangulate_fan by (left; now apply length_zero_iff_nil; lia).
    cbn. eauto. }
  destruct (Nat.eqb_spec (uv_count descs) (length descs)) as [Hall | Hmixed].
  { rewrite triangulate_fan by (right; lia). cbn. eauto. }
  rewrite triangulate_short_uvs by lia. reflexivity.
Qed.

Lemma parse_line_error (st : mesh) (line : string) :
  match line_error line with
  | Some e => parse_line st line = Raise e
  | None => exists st', parse_line st line = Ok st'
  end.
Proof.
  unfold line_error, tokens, parse_line.
  destruct (split (strip line)) as [| p0 args]; [eauto |].
  destruct (String.eqb p0 "v").
  { destruct args as [| a1 [| a2 [| a3 rest]]]; constant_index;
      cbn [nth_error of_option bind numbers_error];
      unfold float_, float_ok;
      repeat match goal with
        | |- context [float_of_string ?a] => destruct (float_of_string a)
        end;
      cbn [of_option bind]; eauto. }
  destruct (String.eqb p0 "vt").
  { destruct args as [| a1 [| a2 rest]]; constant_index;
      cbn [nth_error of_option bind numbers_error];
      unfold float_, float_ok;
      repeat match goal with
        | |- context [float_of_string ?a] => destruct (float_of_string a)
        end;
      cbn [of_option bind]; eauto. }
  destruct (String.eqb p0 "f"); [| eauto].
  cbn [slice_from skipn]. change (skipn 0 args) with args.
  apply face_line_error.
Qed.

Lemma line_ok_no_error (line : string) :
  line_ok line = true <-> line_error line = None.
Proof.
  pose proof (parse_line_decided empty_mesh line) as Hok.
  pose proof (parse_line_error empty_mesh line) as Herr.
  destruct (line_ok line), (line_error line) as [e |].
  - destruct Hok as [st' Hst']. congruence.
  - split; reflexivity.
  - split; discriminate.
  - destruct Hok as [e He], Herr as [st' Hst']. congruence.
Qed.

Lemma parse_lines_good_prefix (st : mesh) (good rest : list string) :
  forallb line_ok good = true ->
  exists st', parse_lines st (good ++ rest) = parse_lines st' rest.
Proof.
  revert st. induction good as [| g good IH]; intros st Hgood.
  - exists st. reflexivity.
  - cbn [forallb] in Hgood. apply andb_prop in Hgood as [Hg Hgood].
    pose proof (parse_line_decided st g) as Hdec. rewrite Hg in Hdec.
    destruct Hdec as [st1 Hst1].
    destruct (IH st1 Hgood) as [st' Hst'].
    exists st'. cbn [app parse_lines]. rewrite Hst1. cbn [bind].
    exact Hst'.
Qed.

(** X2. The parser stops at the first malformed line, with that line's
    exception, whatever follows it: a [ValueError] for a token that is not
    a number, an [IndexError] for a missing number or for texture indices
    on only some of three or more vertices; on a [v] or [vt] line the
    numbers are read from left to right, so a malformed number before a
    missing one gives the [ValueError]. *)
Theorem parser_stops_at_first_malformed_line (st : mesh)
    (lines : list string) (e : exn) :
  parse_lines st lines = Raise e
  <-> exists good bad rest,
        lines = good ++ bad :: rest
        /\ forallb line_ok good = true
        /\ line_error bad = Some e.
Proof.
  split.
  - revert st. induction lines as [| line lines IH]; intros st H.
    + discriminate H.
    + cbn [parse_lines] in H.
      pose proof (parse_line_error st line) as Herr.
      destruct (parse_line st line) as [st1 | e1] eqn:Hline; cbn [bind] in H.
      * destruct (IH st1 H) as (good & bad & rest & -> & Hgood & Hbad).
        exists (line :: good), bad, rest. repeat split; [| exact Hbad].
        cbn [forallb]. rewrite Hgood, andb_true_r.
        apply line_ok_no_error.
        destruct (line_error line); [discriminate Herr | reflexivity].
      * injection H as ->. exists [], line, lines. repeat split.
        destruct (line_error line) as [e' |]; [congruence |].
        destruct Herr as [st' Hst']. discriminate Hst'.
  - intros (good & bad & rest & -> & Hgood & Hbad).
    destruct (parse_lines_good_prefix st good (bad :: rest) Hgood)
      as [st' Hst'].
    rewrite Hst'. cbn [parse_lines].
    pose proof (parse_line_error st' bad) as Herr. rewrite Hbad in Herr.
    now rewrite Herr.
Qed.

Lemma parser_stops_at_first_malformed_line_witness :
  parse_lines empty_mesh ["v 0 0 0"; "v x"; "f 1/1 2 3"; "vt"]
  = Raise ValueError.
Proof.
  apply (parser_stops_at_first_malformed_line empty_mesh
           ["v 0 0 0"; "v x"; "f 1/1 2 3"; "vt"] ValueError).
  exists ["v 0 0 0"], "v x", ["f 1/1 2 3"; "vt"].
  repeat split.
Defined.

(** ** What an accepted line adds *)

Lemma triangulate_accepted (V U : list Z) (acc r : list face) :
  (length U <= length V)%nat ->
  triangulate V U acc = Ok r ->
  r = acc ++ map (fan_triangle V U) (seq 0 (length V - 2)).
Proof.
  intros Hle H.
  destruct (le_lt_dec 3 (length V)) as [Hmany | Hfew].
  - destruct U as [| u0 U'].
    + rewrite triangulate_fan in H by now left. now injection H as <-.
    + destruct (Nat.eq_dec (length (u0 :: U')) (length V)) as [Heq | Hne].
      * rewrite triangulate_fan in H by now right. now injection H as <-.
      * rewrite triangulate_short_uvs in H by (cbn [length] in *; lia).
        discriminate H.
  - rewrite triangulate_few in H by lia. injection H as <-.
    replace (length V - 2)%nat with 0%nat by lia.
    cbn. now rewrite app_nil_r.
Qed.

Lemma parse_line_effect (st st' : mesh) (line : string) :
  parse_line st line = Ok st' ->
  (vertices st' = vertices st ++ line_vertices line
   /\ uvs st' = uvs st ++ line_uvs line
   /\ faces st' = faces st ++ line_faces line)
  /\ (length (line_vertices line)
      = if leading_token_is "v" line then 1%nat else 0%nat)
  /\ (length (line_uvs line)
      = if leading_token_is "vt" line then 1%nat else 0%nat)
  /\ length (line_faces line) = line_triangles line.
Proof.
  unfold parse_line, line_vertices, line_uvs, line_faces, line_triangles,
    leading_token_is, tokens.
  destruct (split (strip line)) as [| p0 args].
  { intros H. injection H as <-. now rewrite !app_nil_r. }
  destruct (String.eqb_spec p0 "v") as [-> | Hv].
  { destruct args as [| a1 [| a2 [| a3 rest]]]; constant_index;
      cbn [nth_error of_option bind String.eqb Ascii.eqb Bool.eqb];
      unfold float_;
      repeat match goal with
        | |- context [float_of_string ?a] => destruct (float_of_string a)
        end;
      cbn [of_option bind]; intros H; try discriminate H;
      injection H as <-; cbn [vertices uvs faces length];
      now rewrite !app_nil_r. }
  destruct (String.eqb_spec p0 "vt") as [-> | Hvt].
  { destruct args as [| a1 [| a2 rest]]; constant_index;
      cbn [nth_error of_option bind String.eqb Ascii.eqb Bool.eqb];
      unfold float_;
      repeat match goal with
        | |- context [float_of_string ?a] => destruct (float_of_string a)
        end;
      cbn [of_option bind]; intros H; try discriminate H;
      injection H as <-; cbn [vertices uvs faces length];
      destruct rest; now rewrite !app_nil_r. }
  assert (Hv3 : match args with
                | a1 :: a2 :: a3 :: _ => @nil vertex
                | _ => []
                end = []).
  { destruct args as [| a1 [| a2 [| a3 rest]]]; reflexivity. }
  assert (Hu2 : match args with
                | a1 :: a2 :: _ => @nil uv
                | _ => []
                end = []).
  { destruct args as [| a1 [| a2 rest]]; reflexivity. }
  rewrite Hv3, Hu2, !app_nil_r. clear Hv3 Hu2.
  destruct (String.eqb p0 "f").
  - cbn [slice_from skipn]. change (skipn 0 args) with args.
    rewrite face_indices_descriptors.
    destruct (descriptors args) as [[V U] |] eqn:Hd; [| discriminate].
    cbn [app bind]. intros H.
    destruct (descriptors_lengths args V U Hd) as [HV HU].
    destruct (triangulate V U (faces st)) as [faces' |] eqn:Htri;
      [| discriminate H].
    cbn [bind] in H. injection H as <-. cbn [vertices uvs faces].
    rewrite (triangulate_accepted V U (faces st) faces' HU Htri).
    rewrite length_map, length_seq, HV. auto.
  - intros H. injection H as <-. now rewrite !app_nil_r.
Qed.

Lemma parse_lines_effect (lines : list string) (st st' : mesh) :
  parse_lines st lines = Ok st' ->
  vertices st' = vertices st ++ concat (map line_vertices lines)
  /\ uvs st' = uvs st ++ concat (map line_uvs lines)
  /\ faces st' = faces st ++ concat (map line_faces lines)
  /\ length (concat (map line_vertices lines))
     = length (List.filter (leading_token_is "v") lines)
  /\ length (concat (map line_uvs lines))
     = length (List.filter (leading_token_is "vt") lines)
  /\ length (concat (map line_faces lines))
     = list_sum (map line_triangles lines).
Proof.
  revert st. induction lines as [| line lines IH]; intros st H.
  - cbn in H. injection H as <-. cbn. now rewrite !app_nil_r.
  - cbn [parse_lines] in H.
    destruct (parse_line st line) as [st1 |] eqn:Hline; [| discriminate H].
    cbn [bind] in H.
    destruct (parse_line_effect st st1 line Hline)
      as ((Hv & Hu & Hf) & Hnv & Hnu & Hnf).
    destruct (IH st1 H) as (Hv' & Hu' & Hf' & Hcv & Hcu & Hcf).
    cbn [map concat List.filter list_sum fold_right].
    rewrite Hv', Hu', Hf', Hv, Hu, Hf, <- !app_assoc.
    rewrite !length_app, Hnv, Hnu, Hnf, Hcv, Hcu, Hcf.
    repeat split.
    + destruct (leading_token_is "v" line); reflexivity.
    + destruct (leading_token_is "vt" line); reflexivity.
Qed.

(** X3. When the parser accepts a file, the three lists hold, in file
    order, what each line adds: a [v] line its first three numbers, a
    [vt] line its first two (further tokens on the line are not read), an
    [f] line the fan of its index lists. *)
Theorem parse_accumulates_in_file_order (content : string) (m : mesh) :
  parse content = Ok m ->
  vertices m = concat (map line_vertices (readlines content))
  /\ uvs m = concat (map line_uvs (readlines content))
  /\ faces m = concat (map line_faces (readlines content)).
Proof.
  intros H. unfold parse in H.
  destruct (parse_lines_effect _ _ _ H) as (Hv & Hu & Hf & _).
  auto.
Qed.

Lemma parse_accumulates_in_file_order_witness :
  vertices textured_triangle
  = concat (map line_vertices (readlines textured_triangle_obj))
  /\ uvs textured_triangle
     = concat (map line_uvs (readlines textured_triangle_obj))
  /\ faces textured_triangle
     = concat (map line_faces (readlines textured_triangle_obj)).
Proof.
  apply (parse_accumulates_in_file_order textured_triangle_obj
           textured_triangle).
  vm_compute. reflexivity.
Defined.

(** X4. When the parser accepts a file, there is one vertex for each
    [v] line, one texture coordinate for each [vt] line, and the number
    of triangles is the sum, over the [f] lines, of the number of vertex
    tokens less two (none for a line with fewer than three). *)
Theorem element_counts (content : string) (m : mesh) :
  parse content = Ok m ->
  length (vertices m)
  = length (List.filter (leading_token_is "v") (readlines content))
  /\ length (uvs m)
     = length (List.filter (leading_token_is "vt") (readlines content))
  /\ length (faces m) = list_sum (map line_triangles (readlines content)).
Proof.
  intros H. unfold parse in H.
  destruct (parse_lines_effect _ _ _ H) as (Hv & Hu & Hf & Hcv & Hcu & Hcf).
  rewrite Hv, Hu, Hf. cbn [vertices uvs faces empty_mesh app]. auto.
Qed.

Lemma element_counts_witness :
  length (vertices textured_triangle)
  = length (List.filter (leading_token_is "v")
              (readlines textured_triangle_obj))
  /\ length (uvs textured_triangle)
     = length (List.filter (leading_token_is "vt")
                 (readlines textured_triangle_obj))
  /\ length (faces textured_triangle)
     = list_sum (map line_triangles (readlines textured_triangle_obj)).
Proof.
  apply (element_counts textured_triangle_obj textured_triangle).
  vm_compute. reflexivity.
Defined.

(** ** Face lines *)

(** X5. A face line with fewer than three vertex tokens, all of them
    well formed, is accepted and changes nothing: no triangle is added
    for a bare [f], a point or an edge. *)
Theorem short_face_adds_nothing (st : mesh) (line : string)
    (descs : list string) :
  tokens line = "f" :: descs ->
  (length descs < 3)%nat ->
  forallb descriptor_ok descs = true ->
  parse_line st line = Ok st.
Proof.
  unfold tokens, parse_line. intros -> Hfew Hok.
  cbn [String.eqb Ascii.eqb Bool.eqb slice_from skipn].
  change (skipn 0 descs) with descs.
  rewrite face_indices_descriptors.
  pose proof (descriptors_ok descs) as Hd.
  destruct (descriptors descs) as [[V U] |]; [| congruence].
  destruct Hd as (_ & HV & _). cbn [app bind].
  rewrite triangulate_few by lia. cbn [bind].
  destruct st; reflexivity.
Qed.

Lemma short_face_adds_nothing_witness :
  parse_line textured_triangle "f 1/1 2/2" = Ok textured_triangle.
Proof.
  apply (short_face_adds_nothing textured_triangle "f 1/1 2/2" ["1/1"; "2/2"]).
  - reflexivity.
  - simpl. lia.
  - reflexivity.
Defined.

Lemma descriptor_first_two (vert vert' : string) :
  firstn 2 (split_on "/" vert) = firstn 2 (split_on "/" vert') ->
  descriptor vert = descriptor vert'.
Proof.
  unfold descriptor.
  destruct (split_on "/" vert) as [| i0 [| i1 r]],
           (split_on "/" vert') as [| j0 [| j1 r']];
    cbn [firstn]; intros H; simplify_eq; reflexivity.
Qed.

(** X6. Only the first two slash-separated fields of a vertex token are
    read: the normal index, and anything after it, is never parsed, so a
    token with a malformed third field is accepted like the token without
    it. *)
Theorem normal_index_is_never_read (descs descs' : list string)
    (acc : list Z * list Z) :
  Forall2 (fun vert vert' =>
             firstn 2 (split_on "/" vert) = firstn 2 (split_on "/" vert'))
          descs descs' ->
  face_indices descs acc = face_indices descs' acc.
Proof.
  intros H. revert acc. induction H as [| vert vert' descs descs' Hv _ IH];
    intros [V U]; [reflexivity |].
  cbn [face_indices]. rewrite !face_vert_descriptor.
  rewrite (descriptor_first_two vert vert' Hv).
  destruct (descriptor vert') as [[v_idx [uv_idx |]] |]; cbn [bind];
    [apply IH | apply IH | reflexivity].
Qed.

Lemma normal_index_is_never_read_witness :
  face_indices ["1/2/x"; "3//"; "4/5/6/7"] ([], [])
  = face_indices ["1/2"; "3/"; "4/5/9"] ([], []).
Proof.
  apply (normal_index_is_never_read ["1/2/x"; "3//"; "4/5/6/7"]
           ["1/2"; "3/"; "4/5/9"] ([], [])).
  repeat constructor.
Defined.

Lemma fan_triangle_covers (V U : list Z) (k : nat) :
  (3 <= length V)%nat ->
  (k < length V)%nat ->
  exists i, (i < length V - 2)%nat
            /\ let '((a, b, c), _) := fan_triangle V U i in
               nth k V 0 = a \/ nth k V 0 = b \/ nth k V 0 = c.
Proof.
  intros HV Hk. unfold fan_triangle.
  destruct k as [| [| k]].
  - exists 0%nat. split; [lia | now left].
  - exists 0%nat. split; [lia | right; right; reflexivity].
  - exists k. split; [lia |]. right. left.
    f_equal. lia.
Qed.

(** X7. The triangles of a face with three or more vertices use every
    vertex index of the face, and the first one is a corner of every
    triangle. *)
Theorem fan_uses_every_vertex (st st' : mesh) (line : string)
    (descs : list string) (V U : list Z) :
  tokens line = "f" :: descs ->
  face_indices descs ([], []) = Ok (V, U) ->
  (3 <= length V)%nat ->
  parse_line st line = Ok st' ->
  exists new : list face,
    faces st' = faces st ++ new
    /\ (forall v, In v V ->
          exists a b c tri_uvs,
            In ((a, b, c), tri_uvs) new /\ (v = a \/ v = b \/ v = c))
    /\ (forall a b c tri_uvs, In ((a, b, c), tri_uvs) new -> a = nth 0 V 0).
Proof.
  intros Htok Hidx HV Hparse. unfold tokens in Htok.
  rewrite (parse_line_face st line descs V U Htok Hidx) in Hparse.
  destruct (triangulate V U (faces st)) as [faces' |] eqn:Htri;
    [| discriminate Hparse].
  cbn [bind] in Hparse. injection Hparse as <-. cbn [faces].
  destruct (face_indices_lengths descs V U Hidx) as [_ HU].
  rewrite (triangulate_accepted V U (faces st) faces' HU Htri).
  eexists. split; [reflexivity |]. split.
  - intros v Hv. apply (In_nth _ _ 0) in Hv as (k & Hk & <-).
    destruct (fan_triangle_covers V U k HV Hk) as (i & Hi & Hcover).
    destruct (fan_triangle V U i) as [[[a b] c] o] eqn:Hfan.
    exists a, b, c, o. split; [| exact Hcover].
    apply in_map_iff. exists i. split; [exact Hfan | apply in_seq; lia].
  - intros a b c o Hin. apply in_map_iff in Hin as (i & Hfan & _).
    unfold fan_triangle in Hfan. now injection Hfan as <- _ _ _.
Qed.

Lemma fan_uses_every_vertex_witness :
  exists new : list face,
    faces (Mesh [] [] [((1, 3, 2), None); ((1, 4, 3), None)])
    = faces empty_mesh ++ new
    /\ (forall v, In v [1; 2; 3; 4] ->
          exists a b c tri_uvs,
            In ((a, b, c), tri_uvs) new /\ (v = a \/ v = b \/ v = c))
    /\ (forall a b c tri_uvs,
          In ((a, b, c), tri_uvs) new -> a = nth 0 [1; 2; 3; 4] 0).
Proof.
  apply (fan_uses_every_vertex empty_mesh
           (Mesh [] [] [((1, 3, 2), None); ((1, 4, 3), None)])
           "f 1 2 3 4" ["1"; "2"; "3"; "4"] [1; 2; 3; 4] []).
  - reflexivity.
  - reflexivity.
  - simpl. lia.
  - reflexivity.
Defined.

(** ** Texture indices while writing *)

Lemma getitem_wraps {A : Type} (l : list A) (t : Z) (d : A) :
  (0 < length l)%nat ->
  getitem l (t - 1)
  = if uv_resolves (length l) t
    then Ok (nth (uv_position (length l) t) l d)
    else Raise IndexError.
Proof.
  intros Hn. unfold getitem, uv_resolves, uv_position.
  destruct (Z.ltb_spec (t - 1) 0) as [Hneg | Hpos];
    destruct (Z.leb_spec t 0) as [Hle | Hgt]; try lia.
  - destruct (Z.ltb_spec (t - 1 + Z.of_nat (length l)) 0) as [Hlow | Hin];
      destruct (Z.leb_spec (1 - Z.of_nat (length l)) t) as [Hge | Hlt];
      try lia; cbn [orb andb]; [reflexivity |].
    destruct (Z.leb_spec (Z.of_nat (length l)) (t - 1 + Z.of_nat (length l)));
      [lia |].
    destruct (Z.leb_spec t (Z.of_nat (length l))); [| lia].
    rewrite (nth_error_nth' l d) by lia. reflexivity.
  - destruct (Z.ltb_spec (t - 1) 0); [lia |]. cbn [orb].
    destruct (Z.leb_spec (1 - Z.of_nat (length l)) t); [| lia]. cbn [andb].
    destruct (Z.leb_spec (Z.of_nat (length l)) (t - 1));
      destruct (Z.leb_spec t (Z.of_nat (length l))); try lia;
      [reflexivity |].
    rewrite (nth_error_nth' l d) by lia. reflexivity.
Qed.

(** X8. Texture indices are resolved with Python's indexing of
    [uvs[t - 1]]: with a non-empty [uvs] of length [n], an index from 1
    to [n] reads that 1-based position, an index from [1 - n] to 0 reads
    from the end (0 is the last pair), and any other index stops the run
    with an [IndexError] before anything of the entry is written. *)
Theorem uv_index_resolution (uvs : list uv) (tri : triple) (t0 t1 t2 : Z)
    (d : uv) :
  uvs <> [] ->
  face_entry uvs (tri, Some (t0, t1, t2))
  = (if uv_resolves (length uvs) t0 && uv_resolves (length uvs) t1
        && uv_resolves (length uvs) t2
     then Ok (tri_prefix tri
              +:+ uv_vec (nth (uv_position (length uvs) t0) uvs d) +:+ ", "
              +:+ uv_vec (nth (uv_position (length uvs) t1) uvs d) +:+ ", "
              +:+ uv_vec (nth (uv_position (length uvs) t2) uvs d)
              +:+ "}," +:+ nl)
     else Raise IndexError)
  /\ (forall t, 1 <= t <= Z.of_nat (length uvs) ->
        uv_resolves (length uvs) t = true
        /\ Z.of_nat (uv_position (length uvs) t) = t - 1)
  /\ (forall t, 1 - Z.of_nat (length uvs) <= t <= 0 ->
        uv_resolves (length uvs) t = true
        /\ Z.of_nat (uv_position (length uvs) t)
           = Z.of_nat (length uvs) - 1 + t)
  /\ (forall t, t < 1 - Z.of_nat (length uvs) \/ Z.of_nat (length uvs) < t ->
        uv_resolves (length uvs) t = false).
Proof.
  intros Hne.
  assert (Hn : (0 < length uvs)%nat).
  { destruct uvs; [contradiction | cbn; lia]. }
  split; [| unfold uv_resolves, uv_position; repeat split].
  - cbn [face_entry]. destruct uvs as [| uv0 uvs']; [contradiction |].
    rewrite !(getitem_wraps (uv0 :: uvs') _ d Hn).
    destruct (uv_resolves _ t0); [| reflexivity].
    destruct (uv_resolves _ t1); [| reflexivity].
    destruct (uv_resolves _ t2); reflexivity.
  - apply andb_true_intro. split; apply Z.leb_le; lia.
  - destruct (Z.leb_spec t 0); lia.
  - apply andb_true_intro. split; apply Z.leb_le; lia.
  - destruct (Z.leb_spec t 0); lia.
  - intros t [Hlow | Hhigh]; apply andb_false_iff.
    + left. apply Z.leb_gt. lia.
    + right. apply Z.leb_gt. lia.
Qed.

Lemma uv_index_resolution_witness :
  face_entry (uvs textured_triangle) ((1, 3, 2), Some (0, -1, 3))
  = Ok (tab +:+ "{1, 3, 2, 0, vec(4.00,0.00), vec(16.00,16.00), "
        +:+ "vec(4.00,0.00)}," +:+ nl)
  /\ (forall t, 1 <= t <= 3 ->
        uv_resolves 3 t = true /\ Z.of_nat (uv_position 3 t) = t - 1)
  /\ (forall t, 1 - 3 <= t <= 0 ->
        uv_resolves 3 t = true /\ Z.of_nat (uv_position 3 t) = 3 - 1 + t)
  /\ (forall t, t < 1 - 3 \/ 3 < t -> uv_resolves 3 t = false).
Proof.
  apply (uv_index_resolution (uvs textured_triangle) (1, 3, 2) 0 (-1) 3
           (S754_zero false, S754_zero false)).
  discriminate.
Defined.

Lemma face_entry_resolves (uvs : list uv) (f : face) :
  face_entry uvs f
  = if uvs_resolve (length uvs) f
    then Ok (entry_text uvs f)
    else Raise IndexError.
Proof.
  unfold entry_text, uvs_resolve.
  destruct f as [tri [[[t0 t1] t2] |]]; cbn [snd];
    [| reflexivity].
  destruct uvs as [| uv0 uvs']; [reflexivity |].
  cbn [face_entry length].
  rewrite !(getitem_wraps (uv0 :: uvs') _ uv0) by (cbn; lia).
  cbn [length].
  destruct (uv_resolves _ t0); [| reflexivity].
  destruct (uv_resolves _ t1); [| reflexivity].
  destruct (uv_resolves _ t2); reflexivity.
Qed.

Lemma write_faces_resolving (uvs : list uv) (fs : list face)
    (written : string) :
  write_faces uvs fs written
  = (written
     +:+ String.concat EmptyString
           (map (entry_text uvs) (resolving_prefix (length uvs) fs)),
     if forallb (uvs_resolve (length uvs)) fs then None else Some IndexError).
Proof.
  revert written. induction fs as [| f rest IH]; intros written.
  - cbn. now rewrite str_app_empty_r.
  - cbn [write_faces resolving_prefix forallb].
    rewrite (face_entry_resolves uvs f).
    destruct (uvs_resolve (length uvs) f); cbn [andb map String.concat].
    + rewrite IH. f_equal.
      destruct (resolving_prefix (length uvs) rest) as [| g rest'].
      * cbn [map String.concat]. now rewrite !str_app_empty_r.
      * cbn [map]. rewrite str_app_empty_l. now rewrite str_app_assoc.
    + now rewrite str_app_empty_r.
Qed.

Lemma write_lua_resolving (obj_path : string) (m : mesh) :
  write_lua obj_path m
  = (header obj_path +:+ vertex_table (vertices m)
     +:+ "local mesh_faces = {" +:+ nl
     +:+ String.concat EmptyString
           (map (entry_text (uvs m))
                (resolving_prefix (length (uvs m)) (faces m)))
     +:+ (if forallb (uvs_resolve (length (uvs m))) (faces m)
          then "}" +:+ nl +:+ nl +:+ trailer
          else EmptyString),
     if forallb (uvs_resolve (length (uvs m))) (faces m)
     then None else Some IndexError).
Proof.
  unfold write_lua. rewrite write_faces_resolving.
  destruct (forallb _ (faces m)).
  - now rewrite !str_app_assoc.
  - now rewrite !str_app_assoc, str_app_empty_r.
Qed.

(** X9. Writing stops only for a texture index that does not resolve,
    always with an [IndexError]: the output then holds the header, the
    whole vertex table, the opening of the face table and the entries of
    the faces before the offending one, without the closing brace and the
    [return] block. Otherwise the output has an entry for every face and
    ends with the [return] block. *)
Theorem write_stops_at_unresolved_uv (obj_path : string) (m : mesh) :
  write_lua obj_path m
  = (header obj_path +:+ vertex_table (vertices m)
     +:+ "local mesh_faces = {" +:+ nl
     +:+ String.concat EmptyString
           (map (entry_text (uvs m))
                (resolving_prefix (length (uvs m)) (faces m)))
     +:+ (if forallb (uvs_resolve (length (uvs m))) (faces m)
          then "}" +:+ nl +:+ nl +:+ trailer
          else EmptyString),
     if forallb (uvs_resolve (length (uvs m))) (faces m)
     then None else Some IndexError)
  /\ (forallb (uvs_resolve (length (uvs m))) (faces m) = true ->
      resolving_prefix (length (uvs m)) (faces m) = faces m).
Proof.
  split; [apply write_lua_resolving |].
  - generalize (length (uvs m)). intros n.
    induction (faces m) as [| f rest IH]; [reflexivity |].
    cbn [forallb resolving_prefix]. intros [Hf Hrest]%andb_prop.
    rewrite Hf. f_equal. auto.
Qed.

Lemma convert_obj_to_lua_parsed (obj_path : string)
    (output_path : option string) (fs : gmap string string)
    (content : string) (m : mesh) :
  fs !! obj_path = Some content ->
  parse content = Ok m ->
  status (convert_obj_to_lua obj_path output_path fs)
  = (if forallb (uvs_resolve (length (uvs m))) (faces m)
     then Finished else Uncaught IndexError)
  /\ files (convert_obj_to_lua obj_path output_path fs)
     = <[default_output obj_path output_path
         := fst (write_lua obj_path m)]> fs.
Proof.
  intros Hfile Hparse. unfold convert_obj_to_lua. rewrite Hfile, Hparse.
  pose proof (write_lua_resolving obj_path m) as Hw.
  destruct (write_lua obj_path m) as [written r].
  injection Hw as _ ->.
  destruct (forallb _ (faces m)); split; reflexivity.
Qed.





(** ** Files a run touches *)

Lemma convert_obj_to_lua_keeps_files (obj_path : string)
    (output_path : option string) (fs : gmap string string) (p : string) :
  is_Some (fs !! p) ->
  is_Some (files (convert_obj_to_lua obj_path output_path fs) !! p).
Proof.
  intros Hp. unfold convert_obj_to_lua.
  destruct (fs !! obj_path) as [content |]; [| exact Hp].
  destruct (parse content) as [m | e]; [| exact Hp].
  destruct (write_lua obj_path m) as [written [e |]]; cbn [files];
    rewrite lookup_insert; case_decide; eauto.
Qed.

(** X11. Whatever the command line, a run changes at most one path, the
    output path, and removes no file. *)
Theorem run_changes_only_the_output_path (argv : list string)
    (fs : gmap string string) (p : string) :
  (output_path_of argv <> Some p -> files (main argv fs) !! p = fs !! p)
  /\ (is_Some (fs !! p) -> is_Some (files (main argv fs) !! p)).
Proof.
  unfold main, output_path_of.
  destruct argv as [| prog [| input_file rest]]; [split; auto .. |].
  replace (match rest with
           | [] => None
           | o :: _ => Some o
           end) with (head rest) by (destruct rest; reflexivity).
  destruct (path_exists fs input_file); cbn [negb]; [| split; auto].
  destruct (String.eqb _ ".fbx"); [split; auto |].
  destruct (String.eqb _ ".obj"); [| split; auto].
  split.
  - intros Hp. apply convert_obj_to_lua_writes_one_path. congruence.
  - apply convert_obj_to_lua_keeps_files.
Qed.

Lemma str_app_inj (a b c : string) : a +:+ b = a +:+ c -> b = c.
Proof.
  induction a as [| x a IH]; [auto |].
  rewrite !str_app_cons. intros H. injection H as H. auto.
Qed.

Lemma default_output_differs (input_file : string) :
  lower (snd (splitext input_file)) = ".obj" ->
  default_output input_file None <> input_file.
Proof.
  intros Hext Heq. unfold default_output in Heq.
  pose proof (splitext_app input_file) as Happ.
  assert (Hsame : fst (splitext input_file) +:+ ".lua"
                  = fst (splitext input_file) +:+ snd (splitext input_file))
    by congruence.
  apply str_app_inj in Hsame. rewrite <- Hsame in Hext. discriminate Hext.
Qed.

(** X12. With one positional argument the input file is never
    modified: the derived output path differs from the path of an [.obj]
    input, and nothing is written for any other input. *)
Theorem one_argument_run_keeps_the_input (prog input_file : string)
    (fs : gmap string string) :
  files (main [prog; input_file] fs) !! input_file = fs !! input_file
  /\ (lower (snd (splitext input_file)) = ".obj" ->
      default_output input_file None <> input_file).
Proof.
  split; [| apply default_output_differs].
  unfold main.
  destruct (path_exists fs input_file); cbn [negb]; [| reflexivity].
  destruct (String.eqb _ ".fbx"); [reflexivity |].
  destruct (String.eqb_spec (lower (snd (splitext input_file))) ".obj")
    as [Hobj |]; [| reflexivity].
  apply convert_obj_to_lua_writes_one_path.
  intros Heq. symmetry in Heq. now apply default_output_differs in Heq.
Qed.



(** X14. The script ends with exit status 0 only after an [.obj]
    conversion that went through: the input exists, has the extension
    [.obj], was accepted by the parser, every texture index resolved, and
    the output path holds the complete text. *)
Theorem finished_run_has_written_the_output (argv : list string)
    (fs : gmap string string) :
  status (main argv fs) = Finished ->
  exists prog input_file rest content m,
    argv = prog :: input_file :: rest
    /\ fs !! input_file = Some content
    /\ lower (snd (splitext input_file)) = ".obj"
    /\ parse content = Ok m
    /\ forallb (uvs_resolve (length (uvs m))) (faces m) = true
    /\ files (main argv fs) !! default_output input_file (head rest)
       = Some (fst (write_lua input_file m)).
Proof.
  unfold main, path_exists.
  destruct argv as [| prog [| input_file rest]]; try discriminate.
  replace (match rest with
           | [] => None
           | o :: _ => Some o
           end) with (head rest) by (destruct rest; reflexivity).
  destruct (fs !! input_file) as [content |] eqn:Hfile; cbn [negb];
    [| discriminate].
  destruct (String.eqb _ ".fbx"); [discriminate |].
  destruct (String.eqb_spec (lower (snd (splitext input_file))) ".obj")
    as [Hobj |]; [| discriminate].
  intros Hfin.
  destruct (convert_obj_to_lua_finished input_file (head rest) fs Hfin)
    as (content' & m & written & Hfile' & Hparse & Hwrite & Hfiles & _).
  assert (content' = content) as -> by congruence.
  destruct (convert_obj_to_lua_parsed input_file (head rest) fs content m
              Hfile Hparse) as [Hstatus Hfiles'].
  exists prog, input_file, rest, content, m.
  repeat split; auto.
  - destruct (forallb _ (faces m)); [reflexivity |].
    rewrite Hstatus in Hfin. discriminate Hfin.
  - rewrite Hfiles'. apply lookup_insert_eq.
Qed.

Lemma finished_run_has_written_the_output_witness :
  exists prog input_file rest content m,
    ["fbx_to_lua.py"; "t.obj"] = prog :: input_file :: rest
    /\ ({[ "t.obj" := textured_triangle_obj ]} : gmap string string)
         !! input_file = Some content
    /\ lower (snd (splitext input_file)) = ".obj"
    /\ parse content = Ok m
    /\ forallb (uvs_resolve (length (uvs m))) (faces m) = true
    /\ files (main ["fbx_to_lua.py"; "t.obj"]
                   {[ "t.obj" := textured_triangle_obj ]})
         !! default_output input_file (head rest)
       = Some (fst (write_lua input_file m)).
Proof.
  apply (finished_run_has_written_the_output ["fbx_to_lua.py"; "t.obj"]
           {[ "t.obj" := textured_triangle_obj ]}).
  vm_compute. reflexivity.
Defined.

(** ** The directory of the output *)

Lemma rfind_bounds (c : ascii) (s : string) :
  -1 <= rfind c s < Z.of_nat (String.length s).
Proof.
  induction s as [| x s IH]; cbn [rfind String.length]; [lia |].
  destruct (Z.leb_spec 0 (rfind c s)); [lia |].
  destruct (Ascii.eqb x c); lia.
Qed.

Lemma rfind_app_without (c : ascii) (a b : string) :
  rfind c b = -1 -> rfind c (a +:+ b) = rfind c a.
Proof.
  intros Hb. induction a as [| x a IH]; [exact Hb |].
  rewrite str_app_cons. cbn [rfind]. now rewrite IH.
Qed.

Lemma rfind_drop (c : ascii) (d : nat) (s : string) :
  rfind c s < Z.of_nat d -> rfind c (str_drop d s) = -1.
Proof.
  revert s. induction d as [| d IH]; intros s H.
  - pose proof (rfind_bounds c s). cbn [str_drop]. lia.
  - destruct s as [| x s]; [reflexivity |].
    cbn [str_drop]. apply IH. cbn [rfind] in H.
    pose proof (rfind_bounds c s).
    destruct (Z.leb_spec 0 (rfind c s)); lia.
Qed.

Lemma splitext_ext_without_slash (p : string) :
  rfind "/" (snd (splitext p)) = -1.
Proof.
  unfold splitext.
  destruct (Z.ltb_spec (rfind "/" p) (rfind "." p)) as [Hlt |]; [| reflexivity].
  destruct (has_non_dot _ _); [| reflexivity].
  cbn [snd]. apply rfind_drop.
  pose proof (rfind_bounds "/" p). lia.
Qed.

Lemma str_take_app (n : nat) (a b : string) :
  (n <= String.length a)%nat -> str_take n (a +:+ b) = str_take n a.
Proof.
  revert a. induction n as [| n IH]; intros a Hn.
  - destruct a, b; reflexivity.
  - destruct a as [| x a]; [cbn in Hn; lia |].
    rewrite str_app_cons. cbn [str_take]. f_equal.
    apply IH. cbn [String.length] in Hn. lia.
Qed.

(** X15. The derived output path is in the directory of the input: the
    two paths agree up to and including the last slash of the input, and
    the extension that is replaced holds no slash. *)
Theorem default_output_stays_in_directory (input_file : string) :
  directory_part (default_output input_file None) = directory_part input_file
  /\ rfind "/" (default_output input_file None) = rfind "/" input_file
  /\ rfind "/" (snd (splitext input_file)) = -1.
Proof.
  pose proof (splitext_ext_without_slash input_file) as Hext.
  pose proof (splitext_app input_file) as Happ.
  assert (Hroot : rfind "/" input_file = rfind "/" (fst (splitext input_file))).
  { rewrite <- Happ at 1. now apply rfind_app_without. }
  assert (Hout : rfind "/" (default_output input_file None)
                 = rfind "/" (fst (splitext input_file))).
  { unfold default_output. now apply rfind_app_without. }
  split; [| split; [congruence | exact Hext]].
  unfold directory_part. rewrite Hout, Hroot.
  pose proof (rfind_bounds "/" (fst (splitext input_file))) as Hb.
  unfold default_output. rewrite str_take_app by lia.
  rewrite <- (str_take_app _ (fst (splitext input_file))
                (snd (splitext input_file))) by lia.
  now rewrite Happ.
Qed.

(** ** Runs compared *)

Lemma convert_obj_to_lua_again (obj_path : string)
    (output_path : option string) (fs : gmap string string) :
  default_output obj_path output_path <> obj_path ->
  convert_obj_to_lua obj_path output_path
    (files (convert_obj_to_lua obj_path output_path fs))
  = convert_obj_to_lua obj_path output_path fs.
Proof.
  intros Hne. unfold convert_obj_to_lua at 2 3.
  destruct (fs !! obj_path) as [content |] eqn:Hfile.
  - destruct (parse content) as [m | e] eqn:Hparse.
    + destruct (write_lua obj_path m) as [written [e |]] eqn:Hwrite;
        cbn [files]; unfold convert_obj_to_lua;
        rewrite lookup_insert_ne by exact Hne;
        rewrite Hfile, Hparse, Hwrite, insert_insert_eq; reflexivity.
    + cbn [files]. unfold convert_obj_to_lua. now rewrite Hfile, Hparse.
  - cbn [files]. unfold convert_obj_to_lua. now rewrite Hfile.
Qed.

(** X16. Running the script a second time with the same single argument
    gives the same messages and exit status and leaves the files as the
    first run left them. *)
Theorem one_argument_run_is_idempotent (prog input_file : string)
    (fs : gmap string string) :
  main [prog; input_file] (files (main [prog; input_file] fs))
  = main [prog; input_file] fs.
Proof.
  unfold main at 2 3.
  destruct (path_exists fs input_file) eqn:Hex; cbn [negb].
  - destruct (String.eqb (lower (snd (splitext input_file))) ".fbx") eqn:Hfbx.
    + cbn [files convert_fbx_to_lua]. unfold main. now rewrite Hex, Hfbx.
    + destruct (String.eqb_spec (lower (snd (splitext input_file))) ".obj")
        as [Hobj | Hobj].
      * pose proof (default_output_differs input_file Hobj) as Hne.
        unfold main.
        assert (Hex' : path_exists
                         (files (convert_obj_to_lua input_file None fs))
                         input_file = true).
        { unfold path_exists in *.
          rewrite convert_obj_to_lua_writes_one_path by congruence.
          exact Hex. }
        rewrite Hex', Hfbx. cbn [negb].
        destruct (String.eqb_spec (lower (snd (splitext input_file))) ".obj");
          [| contradiction].
        now apply convert_obj_to_lua_again.
      * cbn [files]. unfold main. rewrite Hex, Hfbx. cbn [negb].
        destruct (String.eqb_spec (lower (snd (splitext input_file))) ".obj");
          [contradiction | reflexivity].
  - cbn [files]. unfold main. now rewrite Hex.
Qed.



